(** * Eco-Approach-and-Departure: the three decision components

    A shallow embedding of
    - [Python Code/GreenWindowEstimator.py] (signal-phase tracker),
    - [Python Code/DMSI.py]                 (scenario identifier),
    - [Python Code/DMTG.py]                 (trajectory generator),
    and of the helpers around them: [to_byte_string] of [Hex_to_Byte.py],
    [to_hex_string] of [MD_viewer.py] and [UBX_player.py], [Vel_Generator.py],
    [pcap_example.py] and [split_to_segments] of [MapMatcher v2.py],
    followed by theorems about them.

    Numbers are IEEE-754 binary64 values ([PrimFloat.float]), which is what
    both a Python [float] and a [numpy.float64] hold.  The two differ in how
    a division by zero behaves, so every number the classifier and the
    generator compute with carries its [kind].  Expressions evaluate to a
    value or an exception ([E]); each [Core] method is a program in a small
    state/exception monad ([M]) whose outcomes are "fell through",
    "executed [return]" and "raised".

    What the embedding leaves out: the [print] calls, the conversion of
    the integer time stamp to seconds (each [Core] is given the converted
    value), and failures of the host file system under
    [save_profile_to_file]. *)

From Stdlib Require Import Floats ZArith List String Ascii Bool Lia.
From Stdlib Require Import NArith.
Import ListNotations.

Set Warnings "-inexact-float".

(* ================================================================== *)
(** * Python values and control flow *)
(* ================================================================== *)

Module Py.

(** The built-in exceptions the three components can raise. *)
Inductive exn : Set :=
| ZeroDivisionError
| TypeError
| ValueError
| OverflowError
| IndexError
| UnboundLocalError.

(** How a statement sequence ends: it falls through with a value, it
    executes [return r], or it raises. *)
Inductive outcome (R A : Type) : Type :=
| Normal (a : A)
| Returned (r : R)
| Raised (e : exn).
Arguments Normal {R A} a.
Arguments Returned {R A} r.
Arguments Raised {R A} e.

(** A statement sequence over a world [W] inside a function whose return
    type is [R]. *)
Definition M (W R A : Type) : Type := W -> outcome R A * W.

Definition ret {W R A} (a : A) : M W R A := fun w => (Normal a, w).

Definition bind {W R A B} (m : M W R A) (k : A -> M W R B) : M W R B :=
  fun w =>
    match m w with
    | (Normal a, w') => k a w'
    | (Returned r, w') => (Returned r, w')
    | (Raised e, w') => (Raised e, w')
    end.

Definition raise {W R A} (e : exn) : M W R A := fun w => (Raised e, w).
Definition return_ {W R A} (r : R) : M W R A := fun w => (Returned r, w).
Definition get {W R} : M W R W := fun w => (Normal w, w).
Definition modify {W R} (f : W -> W) : M W R unit := fun w => (Normal tt, f w).

(** Calling a function: [return r] inside the body becomes the value of the
    call; a body that falls off its end yields [none]. *)
Definition call {W R R'} (none : R) (body : M W R unit) : M W R' R :=
  fun w =>
    match body w with
    | (Normal _, w') => (Normal none, w')
    | (Returned r, w') => (Normal r, w')
    | (Raised e, w') => (Raised e, w')
    end.

(** Evaluating an expression: a value or an exception; no world, no
    [return]. *)
Inductive E (A : Type) : Type :=
| Val (a : A)
| Exc (e : exn).
Arguments Val {A} a.
Arguments Exc {A} e.

Definition ebind {A B} (x : E A) (k : A -> E B) : E B :=
  match x with
  | Val a => k a
  | Exc e => Exc e
  end.

(** An expression evaluated as (part of) a statement. *)
Definition lift {W R A} (x : E A) : M W R A :=
  fun w => (match x with Val a => Normal a | Exc e => Raised e end, w).

Declare Scope py_scope.
Delimit Scope py_scope with py.
Notation "x <- m ;; k" := (bind m (fun x => k))
  (at level 61, m at next level, right associativity) : py_scope.
Notation "' pat <- m ;; k" := (bind m (fun x => match x with pat => k end))
  (at level 61, pat pattern, m at next level, right associativity) : py_scope.
Notation "m ;; k" := (bind m (fun _ => k))
  (at level 61, right associativity) : py_scope.

Declare Scope expr_scope.
Delimit Scope expr_scope with expr.
Notation "x <- m ;; k" := (ebind m (fun x => k))
  (at level 61, m at next level, right associativity) : expr_scope.
Notation "m ;; k" := (ebind m (fun _ => k))
  (at level 61, right associativity) : expr_scope.

(** ** Floating-point numbers *)

(** [PyFloat]: a built-in [float].  [NpFloat64]: a [numpy.float64] scalar,
    as [np.sqrt], [np.cos] and the elements of [np.arange] are. *)
Inductive kind : Set := PyFloat | NpFloat64.

Record num : Set := Num { val : float; knd : kind }.

(** A Python float literal (an [int] literal meeting a float in a binary
    operation is converted to the same value). *)
Definition py (x : float) : num := Num x PyFloat.

(** The result of a mixed operation is a [numpy.float64]. *)
Definition join (a b : kind) : kind :=
  match a, b with
  | PyFloat, PyFloat => PyFloat
  | _, _ => NpFloat64
  end.

Definition add (a b : num) : num := Num (val a + val b) (join (knd a) (knd b)).
Definition sub (a b : num) : num := Num (val a - val b) (join (knd a) (knd b)).
Definition mul (a b : num) : num := Num (val a * val b) (join (knd a) (knd b)).
Definition neg (a : num) : num := Num (- val a) (knd a).
Definition abs (a : num) : num := Num (PrimFloat.abs (val a)) (knd a).

(** [a / b]: between two built-in floats a zero divisor raises; as soon as
    one operand is a [numpy.float64] the IEEE quotient (an infinity or a
    NaN) is returned, with a warning only. *)
Definition div (a b : num) : E num :=
  match join (knd a) (knd b) with
  | PyFloat =>
      if (val b =? 0)%float then Exc ZeroDivisionError
      else Val (Num (val a / val b) PyFloat)
  | NpFloat64 => Val (Num (val a / val b) NpFloat64)
  end.

Definition lt (a b : num) : bool := (val a <? val b)%float.
Definition le (a b : num) : bool := (val a <=? val b)%float.
Definition gt (a b : num) : bool := (val b <? val a)%float.
Definition ge (a b : num) : bool := (val b <=? val a)%float.
Definition eq (a b : num) : bool := (val a =? val b)%float.

(** [min(a, b)] keeps [a] unless [b < a]; [max(a, b)] keeps [a] unless [b > a]. *)
Definition min (a b : num) : num := if lt b a then b else a.
Definition max (a b : num) : num := if gt b a then b else a.

(** [min(xs)] over a list: [ValueError] on the empty list. *)
Definition min_list (xs : list num) : E num :=
  match xs with
  | [] => Exc ValueError
  | x :: rest => Val (fold_left min rest x)
  end.

Definition np_pi : num := py 0x1.921fb54442d18p+1.
Definition np_sqrt (a : num) : num := Num (PrimFloat.sqrt (val a)) NpFloat64.

(** The integer a finite double truncates to (towards zero). *)
Definition trunc (x : float) : option Z :=
  match Prim2SF x with
  | S754_zero _ => Some 0%Z
  | S754_finite s m e =>
      let a := if (0 <=? e)%Z then (Z.pos m * 2 ^ e)%Z
               else (Z.pos m / 2 ^ (- e))%Z in
      Some (if s then (- a)%Z else a)
  | S754_infinity _ => None
  | S754_nan => None
  end.

(** [int(x)] of a float. *)
Definition int (x : float) : E Z :=
  match trunc x with
  | Some z => Val z
  | None => if (x =? x)%float then Exc OverflowError else Exc ValueError
  end.

(** [round(x)] with no digits argument: the nearest integer, ties to even. *)
Definition round (x : float) : E Z :=
  match Prim2SF x with
  | S754_zero _ => Val 0%Z
  | S754_finite s m e =>
      let a :=
        if (0 <=? e)%Z then (Z.pos m * 2 ^ e)%Z
        else
          let d := (2 ^ (- e))%Z in
          let q := (Z.pos m / d)%Z in
          let r := (Z.pos m mod d)%Z in
          if (2 * r <? d)%Z then q
          else if (d <? 2 * r)%Z then (q + 1)%Z
          else if Z.even q then q else (q + 1)%Z in
      Val (if s then (- a)%Z else a)
  | S754_infinity _ => Exc OverflowError
  | S754_nan => Exc ValueError
  end.

(** The double nearest to an integer ([float(n)], and the conversion of an
    [int] operand of a float operation). *)
Definition of_int (z : Z) : float := SF2Prim (binary_normalize prec emax z 0 false).

(** [xs[i]]: a negative index counts from the end. *)
Definition index {A} (xs : list A) (i : Z) : E A :=
  let j := if (i <? 0)%Z then (i + Z.of_nat (List.length xs))%Z else i in
  if (j <? 0)%Z then Exc IndexError
  else match nth_error xs (Z.to_nat j) with
       | Some a => Val a
       | None => Exc IndexError
       end.

(** Using what may be [None] (or an unassigned local) where a value is
    required. *)
Definition not_none {A} (e : exn) (x : option A) : E A :=
  match x with
  | Some a => Val a
  | None => Exc e
  end.

End Py.

Import Py.
Local Open Scope string_scope.
Local Open Scope list_scope.
Local Open Scope py_scope.

(** The speeds in m/s, the rate parameters and the three arrival times that
    both [DMSI.Core] and [DMTG.compute_velocity_profile] compute as locals. *)
Record Thresholds : Set := {
  v_c_ms : num; v_limit_ms : num; v_coast_ms : num;
  p : num; q : num; t_cr : num; t_e : num; t_l : num
}.

(* ================================================================== *)
(** * DMSI.py: the scenario identifier *)
(* ================================================================== *)

Module DMSI.

(** The data of the six inputs; [None] is a datum that reads as [None].
    [t_0] is the value of [round(float(data * 1e-6), 2)], a built-in float. *)
Record Inputs : Set := {
  d_0 : option num;
  v_c_in : option num;
  t_0 : float;
  g_e_curr : option num;
  g_s_next : option num;
  g_e_next : option num
}.

(** One [self.outputs[...].write(...)]. *)
Inductive Output : Set :=
| scenario (s : string)
| scenario_n (n : Z)
| d_0_out (d : num).

(** The world of one cycle: what was written, oldest first. *)
Definition World : Set := list Output.

Definition write {R} (o : Output) : M World R unit := modify (fun w => w ++ [o]).

(** ** [identify_scenario] *)

(** First loop: [start <= t_cr < end] returns "Scenario 1". *)
Fixpoint scenario1_loop (gamma_intervals : list (num * num)) (t_cr : num) : bool :=
  match gamma_intervals with
  | [] => false
  | (start, end_) :: rest =>
      if le start t_cr && lt t_cr end_ then true
      else scenario1_loop rest t_cr
  end.

(** Second loop: [max(t_e, start) < min(t_cr, end)] returns "Scenario 2". *)
Fixpoint scenario2_loop (gamma_intervals : list (num * num)) (t_e t_cr : num) : bool :=
  match gamma_intervals with
  | [] => false
  | (start, end_) :: rest =>
      if lt (max t_e start) (min t_cr end_) then true
      else scenario2_loop rest t_e t_cr
  end.

(** Third loop: sets [overlap_found] and breaks; the result is the flag. *)
Fixpoint overlap_loop (gamma_intervals : list (num * num)) (t_cr t_l : num) : bool :=
  match gamma_intervals with
  | [] => false
  | (start, end_) :: rest =>
      if lt (max t_cr start) (min t_l end_) then true
      else overlap_loop rest t_cr t_l
  end.

(** Every interval built by [Core] is a pair, so [len(interval) == 2] holds. *)
Definition identify_scenario (gamma_intervals : list (num * num)) (t_cr t_e t_l : num)
  : string * Z :=
  if scenario1_loop gamma_intervals t_cr then ("Scenario 1", 1%Z)
  else if scenario2_loop gamma_intervals t_e t_cr then ("Scenario 2", 2%Z)
  else
    let overlap_found := overlap_loop gamma_intervals t_cr t_l in
    if negb overlap_found then ("Scenario 3", 3%Z)
    else ("Scenario 4", 4%Z).

(** ** [Core] *)

(** Lines 69-74. *)
Definition gamma_intervals (t_0_in g_e_curr g_s_next g_e_next : num) : list (num * num) :=
  if eq g_e_curr (py (-1)) then [(g_s_next, g_e_next)]
  else [(t_0_in, g_e_curr); (g_s_next, g_e_next)].

Definition a_max : num := py 1.0.
Definition d_max : num := py 1.0.
Definition jerk_max : num := py 1.0.
Definition v_limit : num := py 56.33.
Definition v_coast : num := py 12.87.

(** Lines 87-102. *)
Definition rate_thresholds (d_0_in v_c_in : num) : E Thresholds :=
  (let v_c_ms := mul v_c_in (py (5.0 / 18.0)) in
  let v_limit_ms := mul v_limit (py (5.0 / 18.0)) in
  let v_coast_ms := mul v_coast (py (5.0 / 18.0)) in
  term1p <- div (mul (py 2) a_max) (sub v_limit_ms v_c_ms) ;;
  x <- div (mul (py 2) jerk_max) (sub v_limit_ms v_c_ms) ;;
  let term2p := np_sqrt x in
  term1q <- div (mul (py 2) a_max) (sub v_c_ms v_coast_ms) ;;
  y <- div (mul (py 2) jerk_max) (sub v_c_ms v_coast_ms) ;;
  let term2q := np_sqrt y in
  let p := min term1p term2p in
  let q := min term1q term2q in
  t_cr <- div d_0_in v_c_ms ;;
  e1 <- div (mul v_c_ms np_pi) (mul (py 2) p) ;;
  e2 <- div (sub d_0_in e1) v_limit_ms ;;
  e3 <- div np_pi (mul (py 2) p) ;;
  let t_e := add e2 e3 in
  l1 <- div (mul v_c_ms np_pi) (mul (py 2) q) ;;
  l2 <- div (sub d_0_in l1) v_coast_ms ;;
  l3 <- div np_pi (mul (py 2) q) ;;
  let t_l := add l2 l3 in
  Val {| v_c_ms := v_c_ms; v_limit_ms := v_limit_ms; v_coast_ms := v_coast_ms;
         p := p; q := q; t_cr := t_cr; t_e := t_e; t_l := t_l |})%expr.

Definition Core (i : Inputs) : M World unit unit :=
  let t_0_in := py (t_0 i) in
  match d_0 i, v_c_in i, g_e_curr i, g_s_next i, g_e_next i with
  | Some d_0_in, Some v_c_in, Some g_e_curr, Some g_s_next, Some g_e_next =>
      let gamma := gamma_intervals t_0_in g_e_curr g_s_next g_e_next in
      th <- lift (rate_thresholds d_0_in v_c_in) ;;
      (if lt (v_c_ms th) (py 0) then
         write (scenario "Invalid Speed") ;;
         write (d_0_out d_0_in) ;;
         return_ tt
       else if gt (v_c_ms th) (v_limit_ms th) then
         write (scenario "Invalid Speed") ;;
         write (d_0_out d_0_in) ;;
         return_ tt
       else ret tt) ;;
      let '(scenario_result, n) := identify_scenario gamma (t_cr th) (t_e th) (t_l th) in
      write (scenario scenario_result) ;;
      write (scenario_n n) ;;
      write (d_0_out d_0_in)
  | _, _, _, _, _ =>
      write (scenario "Missing Inputs") ;;
      return_ tt
  end.

End DMSI.

(* ================================================================== *)
(** * GreenWindowEstimator.py: the signal-phase tracker *)
(* ================================================================== *)

Module GreenWindowEstimator.

Local Open Scope float_scope.

(** [t0] is the value of [round(float(data * 1e-6), 2)].  An intersection
    input is [None] when its [ioelt] is [None]. *)
Record Inputs : Set := {
  t0 : float;
  current_state : string;
  countdown : float;
  Intersection_ID_matched : option float;
  IntersectionID_SPaT : option float
}.

Inductive Output : Set :=
| out_g_e_curr (x : float)
| out_g_s_next (x : float)
| out_g_e_next (x : float)
| out_state (x : float).

(** The three attributes the [hasattr] guard of [Core] creates. *)
Record TickAttrs : Set := {
  last_cd_tick : option Z;
  last_tick_time : option float;
  tick_intervals : list float
}.

(** The instance attributes [Core] reads or assigns ([last_spat_t0] and
    [cached_schedule] are set by [__init__] and never used again).
    [tick = None]: the object has no attribute [last_cd_tick] yet. *)
Record Self : Set := {
  tick : option TickAttrs;
  g_e_curr : option float;
  g_s_next : option float;
  g_e_next : option float
}.

(** [__init__] *)
Definition init : Self :=
  {| tick := None; g_e_curr := None; g_s_next := None; g_e_next := None |}.

Record World : Set := { self : Self; outputs : list Output }.

Definition write {R} (o : Output) : M World R unit :=
  modify (fun w => {| self := self w; outputs := outputs w ++ [o] |}).
Definition get_self {R} : M World R Self :=
  w <- get ;; ret (self w).
Definition set_self {R} (s : Self) : M World R unit :=
  modify (fun w => {| self := s; outputs := outputs w |}).

Definition set_tick (s : Self) (t : TickAttrs) : Self :=
  {| tick := Some t; g_e_curr := g_e_curr s; g_s_next := g_s_next s; g_e_next := g_e_next s |}.

(** ** [state_name_to_number] *)

(** Whitespace as [str.strip] sees it among the ASCII characters. *)
Definition isspace (c : ascii) : bool :=
  let n := nat_of_ascii c in
  ((9 <=? n) && (n <=? 13) || (28 <=? n) && (n <=? 32))%nat.

Fixpoint lstrip (s : string) : string :=
  match s with
  | EmptyString => EmptyString
  | String c rest => if isspace c then lstrip rest else s
  end.

Fixpoint rstrip (s : string) : string :=
  match s with
  | EmptyString => EmptyString
  | String c rest =>
      match rstrip rest with
      | EmptyString => if isspace c then EmptyString else String c EmptyString
      | rest' => String c rest'
      end
  end.

Definition strip (s : string) : string := rstrip (lstrip s).

Definition state_map : list (string * float) :=
  [ ("unavailable", 0.0);
    ("dark", 1.0);
    ("stop-Then-Proceed", 2.0);
    ("stop-And-Remain", 3.0);
    ("pre-Movement", 4.0);
    ("permissive-Movement-Allowed", 5.0);
    ("protected-Movement-Allowed", 6.0);
    ("permissive-clearance", 7.0);
    ("protected-clearance", 8.0);
    ("caution-Conflicting-Traffic", 9.0) ].

(** [d.get(key, default)] *)
Fixpoint dict_get (d : list (string * float)) (key : string) (default : float) : float :=
  match d with
  | [] => default
  | (k, v) :: rest => if String.eqb k key then v else dict_get rest key default
  end.

Definition state_name_to_number (state_name : string) : float :=
  dict_get state_map (strip state_name) (-1.0).

(** ** [gamma_function] *)

Definition gamma_function (t0 current_state g_e_curr g_s_next g_e_next : float)
  : list (float * float) :=
  if (current_state =? 0) || (current_state =? 1) then []
  else if (current_state =? 4) || (current_state =? 5) || (current_state =? 6) then
    (if t0 <? g_e_curr then [(t0, g_e_curr)] else []) ++ [(g_s_next, g_e_next)]
  else [(g_s_next, g_e_next)].

(** ** [estimate_green_window_from_countdown] *)

(** The result is the returned tuple, in the order of the [return]
    statements: [(g_s_next, g_e_next, g_e_curr)], or [(None, None, None)]. *)
Definition estimate_green_window_from_countdown
    (t0 current_state : float) (countdown_value : Z) (next_green_duration : float)
  : option float * option float * option float :=
  let time_until_phase_change := of_int countdown_value * 0.1 in
  let g_e_curr := -1.0 in
  if (current_state =? 2.0) || (current_state =? 3.0) then
    let g_s_next := time_until_phase_change in
    let g_e_next := g_s_next + next_green_duration in
    (Some g_s_next, Some g_e_next, Some g_e_curr)
  else if (current_state =? 7.0) || (current_state =? 8.0) || (current_state =? 9.0) then
    let red_duration := of_int 50 in
    let g_s_next := time_until_phase_change + red_duration in
    let g_e_next := g_s_next + next_green_duration in
    (Some g_s_next, Some g_e_next, Some g_e_curr)
  else if (current_state =? 4.0) || (current_state =? 5.0) || (current_state =? 6.0) then
    let yellow_red_duration := of_int (50 * 2) in
    let g_e_curr := time_until_phase_change in
    let g_s_next := g_e_curr + yellow_red_duration in
    let g_e_next := g_s_next + next_green_duration in
    (Some g_s_next, Some g_e_next, Some g_e_curr)
  else (None, None, None).

(** ** [Core] *)

(** [sum(xs)]: the running total starts at the integer 0 and the
    elements are added from left to right. *)
Definition sum (xs : list float) : float := fold_left PrimFloat.add xs (of_int 0).

(** Lines 86-88: append, then drop the oldest beyond 20 entries. *)
Definition record_interval (xs : list float) (actual_interval : float) : list float :=
  let xs := xs ++ [actual_interval] in
  if (20 <? List.length xs)%nat then tl xs else xs.

(** Lines 94-97. *)
Definition avg_tick_duration (tick_intervals : list float) : float :=
  let avg :=
    match tick_intervals with
    | [] => 0.1
    | _ => sum tick_intervals / of_int (Z.of_nat (List.length tick_intervals))
    end in
  if avg <? 0.08 then 0.1 else avg.

(** [count_down_in != self.last_cd_tick] *)
Definition differs (count_down_in : Z) (last : option Z) : bool :=
  match last with
  | None => true
  | Some c => negb (count_down_in =? c)%Z
  end.

Definition Core (i : Inputs) : M World unit unit :=
  match Intersection_ID_matched i, IntersectionID_SPaT i with
  | Some intersection_matched, Some intersection_spat =>
      (if negb (intersection_matched =? intersection_spat) then return_ tt else ret tt) ;;
      let t0_in := t0 i in
      let current_state_in := state_name_to_number (current_state i) in
      count_down_in <- lift (int (countdown i)) ;;
      s <- get_self ;;
      let tk :=
        match tick s with
        | Some tk => tk
        | None => {| last_cd_tick := None; last_tick_time := Some t0_in; tick_intervals := [] |}
        end in
      set_self (set_tick s tk) ;;
      (if differs count_down_in (last_cd_tick tk) then
         let intervals :=
           match last_tick_time tk with
           | Some last => record_interval (tick_intervals tk) (t0_in - last)
           | None => tick_intervals tk
           end in
         let tk := {| last_cd_tick := Some count_down_in;
                      last_tick_time := Some t0_in;
                      tick_intervals := intervals |} in
         let avg := avg_tick_duration intervals in
         let '(g_s_next, g_e_next, g_e_curr) :=
           estimate_green_window_from_countdown
             t0_in current_state_in count_down_in (of_int 500 * avg) in
         set_self {| tick := Some tk; g_e_curr := g_e_curr;
                     g_s_next := g_s_next; g_e_next := g_e_next |}
       else ret tt) ;;
      s <- get_self ;;
      match g_e_curr s, g_s_next s, g_e_next s with
      | Some g_e_curr, Some g_s_next, Some g_e_next =>
          let gamma_result :=
            gamma_function t0_in current_state_in g_e_curr g_s_next g_e_next in
          write (out_g_e_curr g_e_curr) ;;
          write (out_g_s_next g_s_next) ;;
          write (out_g_e_next g_e_next) ;;
          write (out_state current_state_in)
      | _, _, _ => return_ tt
      end
  | _, _ => return_ tt
  end.

(** One scheduler cycle on the object [s]: how [Core] ended, the object
    afterwards, and what the cycle wrote. *)
Definition cycle (i : Inputs) (s : Self) : outcome unit unit * Self * list Output :=
  let '(o, w) := Core i {| self := s; outputs := [] |} in (o, self w, outputs w).

Definition after (i : Inputs) (s : Self) : Self := snd (fst (cycle i s)).
Definition written (i : Inputs) (s : Self) : list Output := snd (cycle i s).

(** The object after a sequence of cycles. *)
Definition run (ins : list Inputs) (s : Self) : Self :=
  fold_left (fun s i => after i s) ins s.

End GreenWindowEstimator.

(* ================================================================== *)
(** * DMTG.py: the trajectory generator *)
(* ================================================================== *)

Module DMTG.

(** The numeric routines of NumPy and the C library that the generator
    calls and that binary64 arithmetic alone does not determine: [np.cos],
    the float power [x ** y], and the sample grid [np.arange(start, stop,
    step)] (which may refuse to compute a length). *)
Class NumericLib : Type := {
  np_cos : float -> float;
  float_pow : float -> float -> float;
  np_arange : float -> float -> float -> E (list float)
}.

(** [t_0] is the value of [round(float(data * 1e-6), 2)], a built-in float. *)
Record Inputs : Set := {
  scenario : option string;
  d_0 : option num;
  v_c : option num;
  t_0 : float;
  g_e_curr : option num;
  g_s_next : option num;
  g_e_next : option num
}.

Inductive Output : Set :=
| v_t_kmh (x : num)
| v_t_mph (x : num).

(** The samples [(t, v)], in the order they were appended. *)
Definition Profile : Set := list (num * num).

(** The attributes [Birth] creates. *)
Record Self : Set := {
  precomputed_velocity_profile : option Profile;
  profile_start_time : option num;
  profile_end_time : option num;
  dt : num;
  last_scenario : option string
}.

Definition Birth : Self :=
  {| precomputed_velocity_profile := None;
     profile_start_time := None;
     profile_end_time := None;
     dt := py 0.1;
     last_scenario := None |}.

(** What [save_profile_to_file] hands to the file system (before the
    rounding done for printing). *)
Record SavedProfile : Set := {
  saved_profile : Profile;
  saved_scenario : string;
  saved_t_start : num;
  saved_window : num * num * num;
  saved_v_c : num
}.

Record World : Set := {
  self : Self;
  outputs : list Output;
  files : list SavedProfile
}.

Definition write {R} (o : Output) : M World R unit :=
  modify (fun w => {| self := self w; outputs := outputs w ++ [o]; files := files w |}).
Definition get_self {R} : M World R Self :=
  w <- get ;; ret (self w).
Definition set_self {R} (s : Self) : M World R unit :=
  modify (fun w => {| self := s; outputs := outputs w; files := files w |}).

Definition set_precomputed_velocity_profile {R} (x : option Profile) : M World R unit :=
  s <- get_self ;;
  set_self {| precomputed_velocity_profile := x;
              profile_start_time := profile_start_time s;
              profile_end_time := profile_end_time s;
              dt := dt s;
              last_scenario := last_scenario s |}.

Definition set_last_scenario {R} (x : option string) : M World R unit :=
  s <- get_self ;;
  set_self {| precomputed_velocity_profile := precomputed_velocity_profile s;
              profile_start_time := profile_start_time s;
              profile_end_time := profile_end_time s;
              dt := dt s;
              last_scenario := x |}.

Section Generator.

Context {L : NumericLib}.

Definition cos (a : num) : num := Num (np_cos (val a)) NpFloat64.

(** [a ** y] for the two exponents used, [0.5] on a base that is not
    negative and [2]: a built-in float raises when a finite base overflows. *)
Definition pow (a : num) (y : float) : E num :=
  let r := float_pow (val a) y in
  match knd a with
  | PyFloat =>
      if is_finite (val a) && is_infinity r then Exc OverflowError
      else Val (Num r PyFloat)
  | NpFloat64 => Val (Num r NpFloat64)
  end.

(** The elements of the array are [numpy.float64] scalars. *)
Definition arange (start stop step : num) : E (list num) :=
  (ts <- np_arange (val start) (val stop) (val step) ;;
   Val (map (fun t => Num t NpFloat64) ts))%expr.

(** [for x in xs: ys.append(body(x))] *)
Fixpoint for_each {A B} (xs : list A) (body : A -> E B) : E (list B) :=
  (match xs with
  | [] => Val []
  | x :: rest =>
      y <- body x ;;
      ys <- for_each rest body ;;
      Val (y :: ys)
  end)%expr.

(** ** The piecewise target-speed functions *)

(** [f]; the chained comparison [0 <= t <= pi / (2 * m)] evaluates its
    right-hand side only when [0 <= t] holds. *)
Definition f (t v_c v_h v_d m n t_1 d_0 t_2 t_3 : num) : E num :=
  (first <- (if le (py 0) t
            then (b <- div np_pi (mul (py 2) m) ;; Val (le t b))
            else Val false) ;;
  if first then Val (sub v_h (mul v_d (cos (mul m t))))
  else if le t t_1 then
    r <- div m n ;;
    k <- div np_pi n ;;
    Val (sub v_h (mul (mul r v_d) (cos (mul n (sub (add t k) t_1)))))
  else
    b <- div d_0 v_h ;;
    if le t b then
      r <- div m n ;;
      Val (add v_h (mul r v_d))
    else if le t t_2 then
      r <- div m n ;;
      k <- div (mul (py 3) np_pi) (mul (py 2) n) ;;
      Val (sub v_h (mul (mul r v_d) (cos (mul n (sub (add t k) t_2)))))
    else if le t t_3 then
      Val (sub v_h (mul v_d (cos (mul m (sub t t_3)))))
    else Val v_c)%expr.

(** [h]: the same text as [f]. *)
Definition h (t v_c v_h v_d m n t_1 d_0 t_2 t_3 : num) : E num :=
  (first <- (if le (py 0) t
            then (b <- div np_pi (mul (py 2) m) ;; Val (le t b))
            else Val false) ;;
  if first then Val (sub v_h (mul v_d (cos (mul m t))))
  else if le t t_1 then
    r <- div m n ;;
    k <- div np_pi n ;;
    Val (sub v_h (mul (mul r v_d) (cos (mul n (sub (add t k) t_1)))))
  else
    b <- div d_0 v_h ;;
    if le t b then
      r <- div m n ;;
      Val (add v_h (mul r v_d))
    else if le t t_2 then
      r <- div m n ;;
      k <- div (mul (py 3) np_pi) (mul (py 2) n) ;;
      Val (sub v_h (mul (mul r v_d) (cos (mul n (sub (add t k) t_2)))))
    else if le t t_3 then
      Val (sub v_h (mul v_d (cos (mul m (sub t t_3)))))
    else Val v_c)%expr.

(** [g] *)
Definition g (t v_c t_arr g_next_s t_5 m : num) : E num :=
  (if le (py 0) t && lt t t_arr then
    a <- div v_c (py 2) ;;
    b <- div v_c (py 2) ;;
    let v := add a (mul b (cos (mul m t))) in
    k <- div np_pi m ;;
    Val (if gt t k then py 0.0 else v)
  else if le t_arr t && lt t g_next_s then Val (py 0.0)
  else if le g_next_s t && lt t t_5 then
    a <- div v_c (py 2) ;;
    b <- div v_c (py 2) ;;
    Val (add a (mul b (cos (mul m (sub t t_5)))))
  else Val v_c)%expr.

(** ** Arrival times *)

(** The list [intersections] of [calculate_scen2_t_arr]. *)
Fixpoint scen2_intersections (t_e t_cr : num) (gamma : list (num * num)) : list num :=
  match gamma with
  | [] => []
  | (start, end_) :: rest =>
      let overlap_start := max t_e start in
      let overlap_end := min t_cr end_ in
      if lt overlap_start overlap_end
      then overlap_start :: scen2_intersections t_e t_cr rest
      else scen2_intersections t_e t_cr rest
  end.

(** [min(intersections) if intersections else None] *)
Definition min_or_none (intersections : list num) : option num :=
  match intersections with
  | [] => None
  | x :: rest => Some (fold_left min rest x)
  end.

Definition calculate_scen2_t_arr (t_e t_cr : num) (gamma : list (num * num)) : option num :=
  min_or_none (scen2_intersections t_e t_cr gamma).

(** The list [intersections] of [calculate_scen4_t_arr]. *)
Fixpoint scen4_intersections (t_l t_cr : num) (gamma : list (num * num)) : list num :=
  match gamma with
  | [] => []
  | (start, end_) :: rest =>
      let overlap_start := max t_cr start in
      let overlap_end := min t_l end_ in
      if lt overlap_start overlap_end
      then overlap_start :: scen4_intersections t_l t_cr rest
      else scen4_intersections t_l t_cr rest
  end.

Definition calculate_scen4_t_arr (t_l t_cr : num) (gamma : list (num * num)) : option num :=
  min_or_none (scen4_intersections t_l t_cr gamma).

(** ** Shaping rates *)

Definition calculate_n_scen2and4 (a_max d_max jerk_max v_d v_h d_0 : num) : E num :=
  (valid_n_candidates <-
    (if gt (abs v_d) (py 1e-6) then
       n_acc <- div a_max (abs v_d) ;;
       n_dec <- div d_max (abs v_d) ;;
       x <- div jerk_max (abs v_d) ;;
       n_jerk <- pow x 0.5 ;;
       Val [n_acc; n_dec; n_jerk]
     else Val []) ;;
  n_lower_bound <-
    (if gt (abs v_h) (py 1e-6) && gt (abs d_0) (py 1e-6) then
       a <- div np_pi (py 2) ;;
       b <- div v_h d_0 ;;
       Val (mul (sub a (py 1)) b)
     else Val (py 0.01)) ;;
  lowest <- min_list valid_n_candidates ;;
  Val (max lowest n_lower_bound))%expr.

Definition calculate_m_scen2and4 (n d_0 v_h : num) : E num :=
  (pi_over_2 <- div np_pi (py 2) ;;
  let safe_eps := py 1e-6 in
  let numerator_part1 := mul (neg pi_over_2) n in
  sq1 <- pow (mul pi_over_2 n) 2 ;;
  sq2 <- pow n 2 ;;
  a <- div d_0 v_h ;;
  let inside_sqrt :=
    sub sq1 (mul (mul (py 4) sq2) (sub (sub pi_over_2 (py 1)) (mul a n))) in
  let sqrt_term := if lt inside_sqrt (py 0) then py 0.0 else np_sqrt inside_sqrt in
  let numerator := sub numerator_part1 sqrt_term in
  b <- div d_0 v_h ;;
  let denominator := mul (py 2) (sub (sub pi_over_2 (py 1)) (mul b n)) in
  if lt (abs denominator) safe_eps then Val (py 1e6)
  else div numerator denominator)%expr.

Definition calculate_m_scen3 (d_0 v_h : num) : E num :=
  (a <- div v_h d_0 ;; Val (mul a np_pi))%expr.

Definition calculate_n_scen3 (d_0 v_h : num) : E num :=
  (a <- div v_h d_0 ;; Val (mul a np_pi))%expr.

(** ** [compute_velocity_profile] *)

Definition a_max : num := py 1.0.
Definition d_max : num := py 1.0.
Definition jerk_max : num := py 1.0.
Definition v_limit : num := py 56.33.
Definition v_coast : num := py 12.87.

(** Lines 249-265. *)
Definition rate_thresholds (d_0 v_c : num) : E Thresholds :=
  (let v_c_ms := mul v_c (py (5.0 / 18.0)) in
  let v_limit_ms := mul v_limit (py (5.0 / 18.0)) in
  let v_coast_ms := mul v_coast (py (5.0 / 18.0)) in
  term1p <- div (mul (py 2) a_max) (sub v_limit_ms v_c_ms) ;;
  x <- div (mul (py 2) jerk_max) (sub v_limit_ms v_c_ms) ;;
  let term2p := np_sqrt x in
  term1q <- div (mul (py 2) a_max) (sub v_c_ms v_coast_ms) ;;
  y <- div (mul (py 2) jerk_max) (sub v_c_ms v_coast_ms) ;;
  let term2q := np_sqrt y in
  let p := min term1p term2p in
  let q := min term1q term2q in
  t_cr <- div d_0 v_c_ms ;;
  e1 <- div (mul v_c_ms np_pi) (mul (py 2) p) ;;
  e2 <- div (sub d_0 e1) v_limit_ms ;;
  e3 <- div np_pi (mul (py 2) p) ;;
  let t_e := add e2 e3 in
  l1 <- div (mul v_c_ms np_pi) (mul (py 2) q) ;;
  l2 <- div (sub d_0 l1) v_coast_ms ;;
  l3 <- div np_pi (mul (py 2) q) ;;
  let t_l := add l2 l3 in
  Val {| v_c_ms := v_c_ms; v_limit_ms := v_limit_ms; v_coast_ms := v_coast_ms;
         p := p; q := q; t_cr := t_cr; t_e := t_e; t_l := t_l |})%expr.

(** Lines 268-273. *)
Definition gamma_intervals (t_0 g_e_curr g_s_next g_e_next : num) : list (num * num) :=
  if eq g_e_curr (py (-1)) then [(g_s_next, g_e_next)]
  else [(t_0, g_e_curr); (g_s_next, g_e_next)].

(** [save_profile_to_file]: [round(g_e_next)] must succeed before anything
    is written; the file system itself is taken to accept the write. *)
Definition save_profile_to_file {R}
    (profile : Profile) (scenario : string)
    (t_start g_e_curr g_s_next g_e_next v_c : num) : M World R unit :=
  _ <- lift (round (val g_e_next)) ;;
  modify (fun w =>
    {| self := self w;
       outputs := outputs w;
       files := files w ++ [ {| saved_profile := profile;
                                saved_scenario := scenario;
                                saved_t_start := t_start;
                                saved_window := (g_e_curr, g_s_next, g_e_next);
                                saved_v_c := v_c |} ] |}).

Definition self_dt {R} : M World R num := s <- get_self ;; ret (dt s).

(** What a completed [compute_velocity_profile] returns. *)
Definition Result : Set := Profile * num * num.

(** The loop body of Scenario 1. *)
Definition scenario1_sample (v_c_ms t : num) : E (num * num) :=
  let v := mul v_c_ms (py 3.6) in
  let v := if ge v v_limit then v_limit else v in
  Val (t, v).

(** The loop body of Scenarios 2 and 4. *)
Definition scenario24_sample (scenario : string)
    (t_0 v_c_ms v_h v_d m n t_1 d_0 t_2 t_3 t : num) : E (num * num) :=
  (v <- (if scenario =? "Scenario 2" then
           f (sub t t_0) v_c_ms v_h v_d m n t_1 d_0 t_2 t_3
         else if scenario =? "Scenario 4" then
           h (sub t t_0) v_c_ms v_h v_d m n t_1 d_0 t_2 t_3
         else Exc UnboundLocalError) ;;
   let v := mul v (py 3.6) in
   Val (t, v))%expr.

(** The loop body of Scenario 3. *)
Definition scenario3_sample (t_0 v_c_ms t_arr g_s_next t_5 m t : num) : E (num * num) :=
  (v <- g (sub t t_0) v_c_ms t_arr g_s_next t_5 m ;;
   let v := mul v (py 3.6) in
   let v := if ge v v_limit then v_limit else v in
   Val (t, v))%expr.

(** The branches leave [(profile, t_end)]; [t_end = None] is the local
    name [t_end] never having been assigned.  A bare [return] is
    [return_ None].  [g_s_next] is a number here, so the test
    [g_s_next is None] of the Scenario 3 branch is false. *)
Definition compute_velocity_profile
    (t_0 d_0 : num) (v_c : option num) (g_e_curr g_s_next g_e_next : num)
    (scenario : string) : M World (option Result) unit :=
  v_c <- lift (not_none TypeError v_c) ;;
  th <- lift (rate_thresholds d_0 v_c) ;;
  let v_c_ms := v_c_ms th in
  let gamma_intervals := gamma_intervals t_0 g_e_curr g_s_next g_e_next in
  '(profile, t_end) <-
    (if scenario =? "Scenario 1" then
       let t_end := add t_0 (py 30.0) in
       dt <- self_dt ;;
       ts <- lift (arange t_0 (add t_end dt) dt) ;;
       profile <- lift (for_each ts (scenario1_sample v_c_ms)) ;;
       ret (profile, Some t_end)
     else if (scenario =? "Scenario 2") || (scenario =? "Scenario 4") then
       t_arr <-
         (if scenario =? "Scenario 2" then
            ret (calculate_scen2_t_arr (t_e th) (t_cr th) gamma_intervals)
          else if scenario =? "Scenario 4" then
            ret (calculate_scen4_t_arr (t_l th) (t_cr th) gamma_intervals)
          else raise UnboundLocalError) ;;
       match t_arr with
       | None => return_ None
       | Some t_arr =>
           v_h <- lift (div d_0 t_arr) ;;
           let v_d := sub v_h v_c_ms in
           n <- lift (calculate_n_scen2and4 a_max d_max jerk_max v_d v_h d_0) ;;
           m <- lift (calculate_m_scen2and4 n d_0 v_h) ;;
           t_1 <- lift (a1 <- div np_pi (mul (py 2) m) ;;
                        a2 <- div np_pi (mul (py 2) n) ;;
                        Val (add a1 a2))%expr ;;
           t_2 <- lift (b1 <- div d_0 v_h ;;
                        b2 <- div np_pi (mul (py 2) n) ;;
                        Val (add b1 b2))%expr ;;
           t_3 <- lift (c1 <- div d_0 v_h ;;
                        c2 <- div np_pi (mul (py 2) m) ;;
                        c3 <- div np_pi (mul (py 2) n) ;;
                        Val (add (add c1 c2) c3))%expr ;;
           let t_end := add t_3 (py 1.0) in
           dt <- self_dt ;;
           ts <- lift (arange t_0 (add t_end dt) dt) ;;
           profile <- lift (for_each ts
                        (scenario24_sample scenario t_0 v_c_ms v_h v_d m n t_1 d_0 t_2 t_3)) ;;
           ret (profile, Some t_end)
       end
     else if scenario =? "Scenario 3" then
       (if le v_c_ms (v_coast_ms th) then return_ None else ret tt) ;;
       v_h <- lift (div v_c_ms (py 2.0)) ;;
       t_arr <- lift (div d_0 v_h) ;;
       n <- lift (calculate_n_scen3 d_0 v_h) ;;
       m <- lift (calculate_m_scen3 d_0 v_h) ;;
       t_4 <- lift (a <- div np_pi (mul (py 2) n) ;; Val (add g_s_next a))%expr ;;
       t_5 <- lift (b <- div np_pi (mul m (py 2)) ;; Val (add t_4 b))%expr ;;
       let t_end := add t_5 (py 1.0) in
       dt <- self_dt ;;
       ts <- lift (arange t_0 (add t_end dt) dt) ;;
       profile <- lift (for_each ts (scenario3_sample t_0 v_c_ms t_arr g_s_next t_5 m)) ;;
       ret (profile, Some t_end)
     else ret ([], None)) ;;
  save_profile_to_file profile scenario t_0 g_e_curr g_s_next g_e_next v_c ;;
  t_end <- lift (not_none UnboundLocalError t_end) ;;
  return_ (Some (profile, t_0, add t_0 t_end)).

(** ** [Core] *)

(** [self.precomputed_velocity_profile[k][1]] *)
Definition sample {R} (k : Z) : M World R num :=
  s <- get_self ;;
  profile <- lift (not_none TypeError (precomputed_velocity_profile s)) ;;
  tv <- lift (index profile k) ;;
  ret (snd tv).

(** The two assignments written after the [return] of the missing-input
    branch (lines 78-79) are kept where the source has them. *)
Definition Core (i : Inputs) : M World unit unit :=
  let t_0 := py (t_0 i) in
  match scenario i, d_0 i, g_e_curr i, g_s_next i, g_e_next i with
  | Some scenario, Some d_0, Some g_e_curr, Some g_s_next, Some g_e_next =>
      s <- get_self ;;
      (match precomputed_velocity_profile s with
       | None =>
           r <- call None
                  (compute_velocity_profile
                     t_0 d_0 (v_c i) g_e_curr g_s_next g_e_next scenario) ;;
           match r with
           | None => raise TypeError
           | Some (profile, start, end_) =>
               s <- get_self ;;
               set_self {| precomputed_velocity_profile := Some profile;
                           profile_start_time := Some start;
                           profile_end_time := Some end_;
                           dt := dt s;
                           last_scenario := last_scenario s |}
           end
       | Some _ => ret tt
       end) ;;
      s <- get_self ;;
      start <- lift (not_none TypeError (profile_start_time s)) ;;
      v_output <-
        (if le t_0 start then sample 0
         else
           end_ <- lift (not_none TypeError (profile_end_time s)) ;;
           if ge t_0 end_ then sample (-1)
           else
             x <- lift (div (sub t_0 start) (dt s)) ;;
             idx <- lift (int (val x)) ;;
             profile <- lift (not_none TypeError (precomputed_velocity_profile s)) ;;
             let idx := Z.min idx (Z.of_nat (List.length profile) - 1) in
             sample idx) ;;
      write (v_t_kmh v_output) ;;
      mph <- lift (div v_output (py 1.609)) ;;
      write (v_t_mph mph)
  | _, _, _, _, _ =>
      (return_ tt : M World unit unit) ;;
      set_precomputed_velocity_profile None ;;
      set_last_scenario (scenario i)
  end.

(** One scheduler cycle on the object [s]. *)
Definition cycle (i : Inputs) (s : Self) : outcome unit unit * World :=
  Core i {| self := s; outputs := []; files := [] |}.

Definition after (i : Inputs) (s : Self) : Self := self (snd (cycle i s)).

(** The object after a sequence of cycles. *)
Definition run (ins : list Inputs) (s : Self) : Self :=
  fold_left (fun s i => after i s) ins s.

End Generator.
End DMTG.

(* ================================================================== *)
(** * Hex_to_Byte.py and MD_viewer.py: hexadecimal text and byte arrays *)
(* ================================================================== *)

(** A [numpy.uint8] array is a list of numbers below 256; text is ASCII. *)

Module Hex_to_Byte.

(** [s.replace(c, "")] for a one-character [c]. *)
Fixpoint remove (c : ascii) (s : string) : string :=
  match s with
  | EmptyString => EmptyString
  | String x rest => if Ascii.eqb x c then remove c rest else String x (remove c rest)
  end.

(** [c in '0123456789abcdefABCDEF'] for a character [c]. *)
Definition hex_digits : string := "0123456789abcdefABCDEF".

Fixpoint char_in (c : ascii) (s : string) : bool :=
  match s with
  | EmptyString => false
  | String x rest => Ascii.eqb c x || char_in c rest
  end.

(** [all(c in '0123456789abcdefABCDEF' for c in hex_str)] *)
Fixpoint all_hex (s : string) : bool :=
  match s with
  | EmptyString => true
  | String c rest => char_in c hex_digits && all_hex rest
  end.

(** The value of one hexadecimal digit. *)
Definition digit_value (c : ascii) : option N :=
  let n := N_of_ascii c in
  if ((48 <=? n) && (n <=? 57))%N then Some (n - 48)%N
  else if ((97 <=? n) && (n <=? 102))%N then Some (n - 87)%N
  else if ((65 <=? n) && (n <=? 70))%N then Some (n - 55)%N
  else None.

(** [int(s, 16)] on a text made of hexadecimal digits only (the only texts
    [to_byte_string] passes to it); anything else is refused here. *)
Fixpoint int16_from (acc : N) (s : string) : E N :=
  match s with
  | EmptyString => Val acc
  | String c rest =>
      match digit_value c with
      | Some d => int16_from (16 * acc + d)%N rest
      | None => Exc ValueError
      end
  end.

Definition int16 (s : string) : E N :=
  match s with
  | EmptyString => Exc ValueError
  | _ => int16_from 0%N s
  end.

(** [[hex_str[i:i+2] for i in range(0, len(hex_str), 2)]]: the last slice
    of a text of odd length has one character. *)
Fixpoint slices (s : string) : list string :=
  match s with
  | EmptyString => []
  | String a EmptyString => [String a EmptyString]
  | String a (String b rest) => String a (String b EmptyString) :: slices rest
  end.

(** [[int(chunk, 16) for chunk in ...]] *)
Fixpoint ints (chunks : list string) : E (list N) :=
  (match chunks with
   | [] => Val []
   | chunk :: rest =>
       x <- int16 chunk ;;
       xs <- ints rest ;;
       Val (x :: xs)
   end)%expr.

(** The text with blanks, line feeds, carriage returns and tabs removed. *)
Definition cleaned (hex_str : string) : string :=
  remove "009" (remove "013" (remove "010" (remove " " hex_str))).

(** The test of the [if]: non-empty, of even length, hexadecimal digits
    only. *)
Definition valid (hex_str : string) : bool :=
  negb (String.eqb hex_str "")
  && (String.length hex_str mod 2 =? 0)%nat
  && all_hex hex_str.

Definition to_byte_string (hex_str : string) : E (list N) :=
  let hex_str := cleaned hex_str in
  if valid hex_str then ints (slices hex_str)
  else Val [].

End Hex_to_Byte.

Module MD_viewer.

(** The digit of a value below 16, lower case. *)
Definition digit_char (d : N) : ascii :=
  if (d <? 10)%N then ascii_of_N (48 + d) else ascii_of_N (87 + d).

(** The hexadecimal digits of a positive number, most significant first. *)
Fixpoint hex_of_pos (fuel : nat) (n : N) (acc : string) : string :=
  match fuel with
  | O => acc
  | S fuel =>
      if (n =? 0)%N then acc
      else hex_of_pos fuel (n / 16)%N (String (digit_char (n mod 16)%N) acc)
  end.

(** [format(byte, '02x')]: at least two digits, zero-padded on the left. *)
Definition format_02x (byte : N) : string :=
  let digits := hex_of_pos (N.to_nat byte) byte EmptyString in
  match digits with
  | EmptyString => "00"
  | String d EmptyString => String "0" (String d EmptyString)
  | _ => digits
  end.

(** [''.join(format(byte, '02x') for byte in data)] *)
Fixpoint join_hex (data : list N) : string :=
  match data with
  | [] => EmptyString
  | byte :: rest => format_02x byte ++ join_hex rest
  end.

(** [to_hex_string]; the argument is [None] when the [ioelt] is missing or
    has no [data]. *)
Definition to_hex_string (ioelt : option (list N)) : string :=
  match ioelt with
  | Some (byte :: rest) => join_hex (byte :: rest)
  | _ => " "
  end.

End MD_viewer.

Module UBX_player.

(** [to_hex_string]: as in [MD_viewer], with the empty text for no data. *)
Definition to_hex_string (ioelt : option (list N)) : string :=
  match ioelt with
  | Some (byte :: rest) => MD_viewer.join_hex (byte :: rest)
  | _ => EmptyString
  end.

End UBX_player.

(* ================================================================== *)
(** * Vel_Generator.py: the speed feed *)
(* ================================================================== *)

Module Vel_Generator.

(** The attributes [Birth] creates. *)
Record Self : Set := { v_c : num; dt : num }.

Definition Birth : Self := {| v_c := py 48.0; dt := py 0.1 |}.

(** The world of a run: the object and what was written to [v_c]. *)
Record World : Set := { self : Self; outputs : list num }.

Definition write {R} (x : num) : M World R unit :=
  modify (fun w => {| self := self w; outputs := outputs w ++ [x] |}).
Definition get_self {R} : M World R Self :=
  w <- get ;; ret (self w).
Definition set_v_c {R} (x : num) : M World R unit :=
  modify (fun w => {| self := {| v_c := x; dt := dt (self w) |};
                      outputs := outputs w |}).

(** [feed = None]: the [ioelt] of the input has no attribute [data].  The
    locals [max_delta] and [delta_v] are computed as in the source and, as
    there, used by nothing. *)
Definition Core (feed : option num) : M World unit unit :=
  let a_max := py (of_int 10) in
  let d_max := py (of_int 10) in
  let max_delta := py 0.0 in
  let delta_v := py 0.0 in
  (match feed with
   | Some target =>
       s <- get_self ;;
       let delta_v := sub target (v_c s) in
       let max_delta :=
         if gt delta_v (py 0.0) then mul a_max (dt s) else mul d_max (dt s) in
       let delta_v := max (neg max_delta) (min delta_v max_delta) in
       set_v_c target
   | None => ret tt
   end) ;;
  s <- get_self ;;
  write (v_c s).

(** A sequence of cycles, one per feed. *)
Fixpoint run (feeds : list (option num)) : M World unit unit :=
  match feeds with
  | [] => ret tt
  | feed :: rest => Core feed ;; run rest
  end.

End Vel_Generator.

(* ================================================================== *)
(** * pcap_example.py: replaying captured packets *)
(* ================================================================== *)

Module pcap_example.

(** A packet is the byte string [bytes(packet)] gives. *)
Definition Packet : Set := list N.

Record Self : Set := { packets : list Packet; index : Z }.

(** [Birth], [loaded] being what [rdpcap] read. *)
Definition Birth (loaded : list Packet) : Self := {| packets := loaded; index := 0 |}.

Record World : Set := { self : Self; outputs : list Packet }.

Definition write {R} (x : Packet) : M World R unit :=
  modify (fun w => {| self := self w; outputs := outputs w ++ [x] |}).
Definition get_self {R} : M World R Self :=
  w <- get ;; ret (self w).
Definition set_index {R} (k : Z) : M World R unit :=
  modify (fun w => {| self := {| packets := packets (self w); index := k |};
                      outputs := outputs w |}).

Definition Core : M World unit unit :=
  s <- get_self ;;
  if (index s <? Z.of_nat (List.length (packets s)))%Z then
    packet <- lift (Py.index (packets s) (index s)) ;;
    write packet ;;
    set_index (index s + 1)
  else ret tt.

(** [n] cycles in a row. *)
Fixpoint run (n : nat) : M World unit unit :=
  match n with
  | O => ret tt
  | S n => Core ;; run n
  end.

End pcap_example.

(* ================================================================== *)
(** * MapMatcher v2.py: splitting a line into segments *)
(* ================================================================== *)

Module MapMatcher_v2.

Section Segments.

(** A coordinate tuple of the line. *)
Variable Coord : Type.

(** [range(n)] *)
Definition range (n : Z) : list Z := map Z.of_nat (seq 0 (Z.to_nat n)).

(** The loop: [segments.append(LineString([line[i], line[i+1]]))].  A
    two-point [LineString] is the pair of its ends. *)
Fixpoint segments_from (line : list Coord) (indices : list Z) : E (list (Coord * Coord)) :=
  (match indices with
   | [] => Val []
   | i :: rest =>
       a <- Py.index line i ;;
       b <- Py.index line (i + 1) ;;
       segments <- segments_from line rest ;;
       Val ((a, b) :: segments)
   end)%expr.

(** [line] is [list(line.coords)]. *)
Definition split_to_segments (line : list Coord) : E (list (Coord * Coord)) :=
  segments_from line (range (Z.of_nat (List.length line) - 1)).

End Segments.

Arguments range n : clear implicits.
Arguments segments_from {Coord} line indices.
Arguments split_to_segments {Coord} line.

End MapMatcher_v2.

(* ================================================================== *)
(** * Vocabulary of the statements *)
(* ================================================================== *)

(** ** The scenario identifier *)

(** The three predicates of the classification rule, as the specification
    words them: some interval [[s, e)] with [s <= t_cr < e]; some interval
    with [max(t_e, s) < min(t_cr, e)]; some interval overlapping
    [(t_cr, t_l)]. *)
Definition cruise_arrival_green (gamma : list (num * num)) (t_cr : num) : Prop :=
  exists s e, In (s, e) gamma /\ le s t_cr = true /\ lt t_cr e = true.

Definition early_arrival_green (gamma : list (num * num)) (t_cr t_e : num) : Prop :=
  exists s e, In (s, e) gamma /\ lt (max t_e s) (min t_cr e) = true.

Definition late_arrival_green (gamma : list (num * num)) (t_cr t_l : num) : Prop :=
  exists s e, In (s, e) gamma /\ lt (max t_cr s) (min t_l e) = true.

(** A call of the classifier with all six data present, of one kind. *)
Definition classify_call (k : kind) (d v t0 gec gs ge : float) : DMSI.Inputs :=
  {| DMSI.d_0 := Some (Num d k);
     DMSI.v_c_in := Some (Num v k);
     DMSI.t_0 := t0;
     DMSI.g_e_curr := Some (Num gec k);
     DMSI.g_s_next := Some (Num gs k);
     DMSI.g_e_next := Some (Num ge k) |}.

(** What [Core] writes once the thresholds [th] are computed and the
    speed test is passed, for the green intervals [gamma]. *)
Definition classified (gamma : list (num * num)) (th : Thresholds) (d : num)
  : list DMSI.Output :=
  let r := DMSI.identify_scenario gamma (t_cr th) (t_e th) (t_l th) in
  [DMSI.scenario (fst r); DMSI.scenario_n (snd r); DMSI.d_0_out d].

(** ** The signal-phase tracker *)

Module G := GreenWindowEstimator.

(** The cached green-window estimate, the tick history and the last
    countdown value seen, read off the object. *)
Definition estimate (s : G.Self) : option float * option float * option float :=
  (G.g_e_curr s, G.g_s_next s, G.g_e_next s).

Definition history (s : G.Self) : list float :=
  match G.tick s with
  | Some tk => G.tick_intervals tk
  | None => []
  end.

Definition last_seen (s : G.Self) : option Z :=
  match G.tick s with
  | Some tk => G.last_cd_tick tk
  | None => None
  end.

(** The two intersection identifiers are present and equal. *)
Definition same_intersection (i : G.Inputs) : Prop :=
  exists a b, G.Intersection_ID_matched i = Some a
              /\ G.IntersectionID_SPaT i = Some b
              /\ (a =? b)%float = true.

(** What a cycle writes from a cached estimate that is complete. *)
Definition emitted (e : option float * option float * option float) (code : float)
  : list G.Output :=
  match e with
  | (Some g_e_curr, Some g_s_next, Some g_e_next) =>
      [G.out_g_e_curr g_e_curr; G.out_g_s_next g_s_next;
       G.out_g_e_next g_e_next; G.out_state code]
  | _ => []
  end.

Ltac tracker_unfold :=
  unfold G.after, G.written, G.cycle, G.Core, G.get_self, G.set_self, G.write,
    bind, lift, get, modify, ret, return_.

(** The tick history after a cycle at time [t0] whose countdown differs
    from the last one seen (or that is the first cycle of the object). *)
Definition next_history (t0 : float) (s : G.Self) : list float :=
  match G.tick s with
  | None => G.record_interval [] (t0 - t0)
  | Some tk =>
      match G.last_tick_time tk with
      | Some last => G.record_interval (G.tick_intervals tk) (t0 - last)
      | None => G.tick_intervals tk
      end
  end.

(** The phase categories, by numeric code. *)
Definition red (code : float) : Prop := code = 2%float \/ code = 3%float.
Definition yellow (code : float) : Prop :=
  code = 7%float \/ code = 8%float \/ code = 9%float.
Definition green (code : float) : Prop :=
  code = 4%float \/ code = 5%float \/ code = 6%float.

(** The codes of "unavailable" and "dark", and the code -1 that
    [state_name_to_number] gives every name outside its table. *)
Definition unsupported (code : float) : Prop :=
  code = 0%float \/ code = 1%float \/ code = (-1)%float.

(** The object after a first cycle in a green phase with countdown 200:
    its cached estimate is (20, 120, 170). *)
Definition tracked_green : G.Self :=
  G.after {| G.t0 := 5; G.current_state := "pre-Movement"; G.countdown := 200;
             G.Intersection_ID_matched := Some 7%float;
             G.IntersectionID_SPaT := Some 7%float |} G.init.

Definition dark_cycle (countdown : float) : G.Inputs :=
  {| G.t0 := 5.1; G.current_state := "dark"; G.countdown := countdown;
     G.Intersection_ID_matched := Some 7%float;
     G.IntersectionID_SPaT := Some 7%float |}.

(** C3 as stated: an unsupported phase keeps the cached estimate and
    writes nothing. *)
Definition unsupported_phase_retains_estimate : Prop :=
  forall (s : G.Self) (i : G.Inputs),
    unsupported (G.state_name_to_number (G.current_state i)) ->
    estimate (G.after i s) = estimate s /\ G.written i s = [].

(** The first cycle of a tracker, in a red phase with countdown 300. *)
Definition red_cycle : G.Inputs :=
  {| G.t0 := 5; G.current_state := "stop-And-Remain"; G.countdown := 300;
     G.Intersection_ID_matched := Some 7%float;
     G.IntersectionID_SPaT := Some 7%float |}.

(** ** The trajectory generator *)

Module T := DMTG.

Ltac planner_unfold :=
  unfold T.after, T.cycle, T.Core, T.sample, T.get_self, T.set_self, T.write,
    T.set_precomputed_velocity_profile, T.set_last_scenario,
    bind, lift, call, get, modify, ret, return_, raise.

(** One case analysis on the next expression a lookup evaluates. *)
Ltac lookup_step :=
  match goal with
  | |- context [not_none _ ?x] => destruct x; simpl
  | |- context [if le ?a ?b then _ else _] => destruct (le a b); simpl
  | |- context [if ge ?a ?b then _ else _] => destruct (ge a b); simpl
  | |- context [div ?a ?b] => destruct (div a b); simpl
  | |- context [int ?a] => destruct (int a); simpl
  | |- context [index ?a ?b] => destruct (index a b); simpl
  end.

(** Some datum among those [Core] validates reads as [None]. *)
Definition missing_input (i : T.Inputs) : Prop :=
  T.scenario i = None \/ T.d_0 i = None \/ T.g_e_curr i = None
  \/ T.g_s_next i = None \/ T.g_e_next i = None.

(** The Scenario 2 (Scenario 4) call has no feasible arrival time: no
    interval [[s, e)] has [max(t_e, s) < min(t_cr, e)] (respectively
    [max(t_cr, s) < min(t_l, e)]). *)
Definition no_feasible_arrival (label : string) (gamma : list (num * num))
    (th : Thresholds) : Prop :=
  (label = "Scenario 2" /\ ~ early_arrival_green gamma (t_cr th) (t_e th))
  \/ (label = "Scenario 4" /\ ~ late_arrival_green gamma (t_cr th) (t_l th)).

(** The inputs of a generator cycle with every datum present. *)
Definition plan_call (label : string) (d v : num) (t0 : float) (gec gs ge : num)
  : T.Inputs :=
  {| T.scenario := Some label; T.d_0 := Some d; T.v_c := Some v; T.t_0 := t0;
     T.g_e_curr := Some gec; T.g_s_next := Some gs; T.g_e_next := Some ge |}.

Definition recognized_labels : list string :=
  ["Scenario 1"; "Scenario 2"; "Scenario 3"; "Scenario 4"].

(** The world after [save_profile_to_file] was handed the empty profile. *)
Definition saved_empty (w : T.World) (label : string) (t_0 gec gs ge v : num)
  : T.World :=
  {| T.self := T.self w;
     T.outputs := T.outputs w;
     T.files := T.files w ++ [ {| T.saved_profile := [];
                                  T.saved_scenario := label;
                                  T.saved_t_start := t_0;
                                  T.saved_window := (gec, gs, ge);
                                  T.saved_v_c := v |} ] |}.

(** The least integer not below a finite double. *)
Definition ceil (x : float) : option Z :=
  match trunc x with
  | Some z => Some (if (of_int z <? x)%float then (z + 1)%Z else z)
  | None => None
  end.

(** [start + k * step] for [k = 0 .. ceil((stop - start) / step) - 1]. *)
Definition grid (start stop step : float) : E (list float) :=
  match ceil ((stop - start) / step) with
  | Some n =>
      Val (map (fun k => (start + of_int (Z.of_nat k) * step)%float) (seq 0 (Z.to_nat n)))
  | None => Exc ValueError
  end.

(** A numeric library for the closed instances of the generator: the
    sample grid follows NumPy's documented formula (the values
    [start + k * step] for [k] below [ceil((stop - start) / step)]); no
    instance below evaluates a cosine or a power. *)
Definition example_lib : T.NumericLib :=
  {| T.np_cos := fun _ => nan; T.float_pow := fun _ _ => nan; T.np_arange := grid |}.

(** 100 m from the stop bar at 30 km/h, at time 5 s, the only green
    window being [1000, 1050). *)
Definition far_window (label : string) : T.Inputs :=
  plan_call label (py 100) (py 30) 5 (py (-1)) (py 1000) (py 1050).

(** ** Hexadecimal text and byte arrays *)

Module H := Hex_to_Byte.

(** The four characters [to_byte_string] removes. *)
Definition blank (c : ascii) : Prop :=
  c = " "%char \/ c = "010"%char \/ c = "013"%char \/ c = "009"%char.

(** [format(b, '02x')] is two hexadecimal digits, untouched by the
    cleaning, that [int(_, 16)] reads back as [b]. *)
Definition reads_back (b : N) : bool :=
  match MD_viewer.format_02x b with
  | String c1 (String c2 EmptyString) =>
      H.char_in c1 H.hex_digits && H.char_in c2 H.hex_digits
      && String.eqb (H.cleaned (String c1 (String c2 EmptyString)))
                    (String c1 (String c2 EmptyString))
      && match H.int16 (String c1 (String c2 EmptyString)) with
         | Val z => (z =? b)%N
         | Exc _ => false
         end
  | _ => false
  end.

(** A byte array: every element is below 256. *)
Definition uint8 (data : list N) : Prop := Forall (fun b => (b < 256)%N) data.

(** ** Arrival times *)

(** [x] is the start of the overlap of [[lo, hi]] with some green
    interval: [x = max(lo, s)] and [x < min(hi, e)] for an interval
    [(s, e)] of [gamma]. *)
Definition overlap_start (lo hi : num) (gamma : list (num * num)) (x : num) : Prop :=
  exists s e, In (s, e) gamma /\ x = max lo s /\ lt x (min hi e) = true.

(** What an arrival-time search must return on [gamma]: the least overlap
    start (none is below it), or [None] when there is none. *)
Definition least_overlap_start (lo hi : num) (gamma : list (num * num))
    (r : option num) : Prop :=
  match r with
  | Some t =>
      overlap_start lo hi gamma t
      /\ forall x, overlap_start lo hi gamma x -> lt x t = false
  | None => forall x, ~ overlap_start lo hi gamma x
  end.

(** ** Lookups in a cached profile *)

(** [v / 1.609] *)
Definition mph (v : num) : num := Num (val v / 1.609) (knd v).

(** What a cycle writes when it looks up the speed [v]. *)
Definition looked_up (s : T.Self) (v : num) : outcome unit unit * T.World :=
  (Normal tt, {| T.self := s; T.outputs := [T.v_t_kmh v; T.v_t_mph (mph v)];
                 T.files := [] |}).

(** An object whose cache holds [profile] from [start] to [end_]. *)
Definition ready (profile : T.Profile) (start end_ dt : num) (last : option string)
  : T.Self :=
  {| T.precomputed_velocity_profile := Some profile;
     T.profile_start_time := Some start;
     T.profile_end_time := Some end_;
     T.dt := dt;
     T.last_scenario := last |}.

(** The speed of Scenarios 1 and 3 after the test [v >= v_limit]. *)
Definition clamped (v : num) : num := if ge v T.v_limit then T.v_limit else v.

(** No sample of the profile is above the speed limit. *)
Definition within_limit (profile : T.Profile) : Prop :=
  Forall (fun tv => gt (snd tv) T.v_limit = false) profile.

(** The profile a call of [compute_velocity_profile] returned, if any. *)
Definition returned_profile (r : outcome (option T.Result) unit * T.World)
  : T.Profile :=
  match fst r with
  | Returned (Some (profile, _, _)) => profile
  | _ => []
  end.

(** A Scenario 1 computation at 60 km/h, above the limit. *)
Definition over_limit_call : outcome (option T.Result) unit * T.World :=
  @T.compute_velocity_profile example_lib (py 5) (py 100) (Some (py 60))
    (py (-1)) (py 1000) (py 1050) "Scenario 1"
    {| T.self := T.Birth; T.outputs := []; T.files := [] |}.

(** A numeric library with the correctly rounded square and square root
    as its two powers, for closed instances that evaluate a power. *)
Definition squaring_lib : T.NumericLib :=
  {| T.np_cos := fun _ => nan;
     T.float_pow := fun x y => if (y =? 2)%float then (x * x)%float else PrimFloat.sqrt x;
     T.np_arange := grid |}.

(** ** What a cycle of the generator can change *)

(** A statement sequence that leaves the object and the outputs alone. *)
Definition frames {R A : Type} (m : M T.World R A) : Prop :=
  forall w, T.self (snd (m w)) = T.self w /\ T.outputs (snd (m w)) = T.outputs w.

(** The three attributes of the cache are set together. *)
Definition cache_consistent (s : T.Self) : Prop :=
  match T.precomputed_velocity_profile s, T.profile_start_time s, T.profile_end_time s with
  | None, None, None => True
  | Some _, Some _, Some _ => True
  | _, _, _ => False
  end.

(** The object keeps the step and the scenario [Birth] gave it. *)
Definition as_born (s : T.Self) : Prop :=
  T.dt s = py 0.1 /\ T.last_scenario s = None /\ cache_consistent s.

(** How a cycle [r] on the inputs [i] and the object [s] ends: normally,
    having written one speed in km/h and in mph; by the [return] of the
    missing-input branch, nothing written or changed; or raising, nothing
    written. *)
Definition cycle_ends_well (i : T.Inputs) (s : T.Self)
    (r : outcome unit unit * T.World) : Prop :=
  match fst r with
  | Normal _ => exists v, T.outputs (snd r) = [T.v_t_kmh v; T.v_t_mph (mph v)]
  | Returned _ =>
      missing_input i /\ snd r = {| T.self := s; T.outputs := []; T.files := [] |}
  | Raised _ => T.outputs (snd r) = []
  end.

(** ** The tracker's object over a run *)

(** A cached estimate is three values or three [None]s. *)
Definition whole (e : option float * option float * option float) : Prop :=
  e = (None, None, None) \/ exists a b c, e = (Some a, Some b, Some c).

(** The object as [__init__] leaves it, or as a processed cycle does: the
    three tick attributes exist, the last countdown and tick time are set
    and the history is not empty. *)
Definition settled (s : G.Self) : Prop :=
  whole (estimate s)
  /\ match G.tick s with
     | None => estimate s = (None, None, None)
     | Some tk =>
         G.last_cd_tick tk <> None /\ G.last_tick_time tk <> None
         /\ G.tick_intervals tk <> []
     end.

(** Nothing, or the three estimates and the phase code in this order. *)
Definition four_or_nothing (i : G.Inputs) (out : list G.Output) : Prop :=
  out = []
  \/ exists a b c,
       out = [G.out_g_e_curr a; G.out_g_s_next b; G.out_g_e_next c;
              G.out_state (G.state_name_to_number (G.current_state i))].

(** A text made of whitespace only. *)
Fixpoint blank_text (s : string) : bool :=
  match s with
  | EmptyString => true
  | String c rest => G.isspace c && blank_text rest
  end.

(** ** The classifier's intervals and reports *)

(** The bounds of the intervals, as plain doubles. *)
Definition floats_of (gamma : list (num * num)) : list (float * float) :=
  map (fun se => (val (fst se), val (snd se))) gamma.




(** ** The speed feed, the packet replay and the segments *)

Module V := Vel_Generator.
Module P := pcap_example.
Module MM := MapMatcher_v2.

(** The feed sampled and held: the last value fed, [last] before any. *)
Fixpoint held (last : num) (feeds : list (option num)) : list num :=
  match feeds with
  | [] => []
  | Some x :: rest => x :: held x rest
  | None :: rest => last :: held last rest
  end.

(* ================================================================== *)
(** * Theorems *)
(* ================================================================== *)

(** ** The scenario identifier decides by first match *)

Lemma scenario1_loop_spec (gamma : list (num * num)) (t_cr : num) :
  DMSI.scenario1_loop gamma t_cr = true <-> cruise_arrival_green gamma t_cr.
Proof.
  unfold cruise_arrival_green.
  induction gamma as [|[s e] rest IH]; simpl.
  - split; [discriminate | intros (s & e & [] & _)].
  - destruct (le s t_cr && lt t_cr e) eqn:Hse.
    + split; [intros _ | reflexivity].
      apply andb_prop in Hse. exists s, e. intuition.
    + rewrite IH. split.
      * intros (s' & e' & Hin & H). exists s', e'. intuition.
      * intros (s' & e' & [Heq | Hin] & H1 & H2).
        -- inversion Heq; subst. rewrite H1, H2 in Hse. discriminate.
        -- exists s', e'. intuition.
Qed.

Lemma scenario2_loop_spec (gamma : list (num * num)) (t_cr t_e : num) :
  DMSI.scenario2_loop gamma t_e t_cr = true <-> early_arrival_green gamma t_cr t_e.
Proof.
  unfold early_arrival_green.
  induction gamma as [|[s e] rest IH]; simpl.
  - split; [discriminate | intros (s & e & [] & _)].
  - destruct (lt (max t_e s) (min t_cr e)) eqn:Hse.
    + split; [intros _ | reflexivity]. exists s, e. intuition.
    + rewrite IH. split.
      * intros (s' & e' & Hin & H). exists s', e'. intuition.
      * intros (s' & e' & [Heq | Hin] & H).
        -- inversion Heq; subst. congruence.
        -- exists s', e'. intuition.
Qed.

Lemma overlap_loop_spec (gamma : list (num * num)) (t_cr t_l : num) :
  DMSI.overlap_loop gamma t_cr t_l = true <-> late_arrival_green gamma t_cr t_l.
Proof.
  unfold late_arrival_green.
  induction gamma as [|[s e] rest IH]; simpl.
  - split; [discriminate | intros (s & e & [] & _)].
  - destruct (lt (max t_cr s) (min t_l e)) eqn:Hse.
    + split; [intros _ | reflexivity]. exists s, e. intuition.
    + rewrite IH. split.
      * intros (s' & e' & Hin & H). exists s', e'. intuition.
      * intros (s' & e' & [Heq | Hin] & H).
        -- inversion Heq; subst. congruence.
        -- exists s', e'. intuition.
Qed.

(** C5. [identify_scenario] is total: on every interval list and every
    threshold triple it returns one of the four scenarios, and which one is
    fixed by first match in priority order: Scenario 1 exactly when some
    interval has [s <= t_cr < e]; Scenario 2 exactly when none has and some
    interval has [max(t_e, s) < min(t_cr, e)]; Scenario 3 exactly when
    neither holds and no interval has [max(t_cr, s) < min(t_l, e)];
    Scenario 4 exactly in the remaining case. *)
Theorem identify_scenario_first_match :
  forall (gamma : list (num * num)) (t_cr t_e t_l : num),
    let r := DMSI.identify_scenario gamma t_cr t_e t_l in
    In r [("Scenario 1", 1%Z); ("Scenario 2", 2%Z); ("Scenario 3", 3%Z); ("Scenario 4", 4%Z)]
    /\ (r = ("Scenario 1", 1%Z) <-> cruise_arrival_green gamma t_cr)
    /\ (r = ("Scenario 2", 2%Z) <->
          ~ cruise_arrival_green gamma t_cr /\ early_arrival_green gamma t_cr t_e)
    /\ (r = ("Scenario 3", 3%Z) <->
          ~ cruise_arrival_green gamma t_cr /\ ~ early_arrival_green gamma t_cr t_e
          /\ ~ late_arrival_green gamma t_cr t_l)
    /\ (r = ("Scenario 4", 4%Z) <->
          ~ cruise_arrival_green gamma t_cr /\ ~ early_arrival_green gamma t_cr t_e
          /\ late_arrival_green gamma t_cr t_l).
Proof.
  intros gamma t_cr t_e t_l r. subst r. unfold DMSI.identify_scenario.
  pose proof (scenario1_loop_spec gamma t_cr) as H1.
  pose proof (scenario2_loop_spec gamma t_cr t_e) as H2.
  pose proof (overlap_loop_spec gamma t_cr t_l) as H3.
  destruct (DMSI.scenario1_loop gamma t_cr);
    [| destruct (DMSI.scenario2_loop gamma t_e t_cr);
       [| destruct (DMSI.overlap_loop gamma t_cr t_l) ] ]; simpl;
    repeat split; intros;
    try discriminate;
    try (intuition (discriminate || congruence)).
Qed.

(** ** The classifier's inputs, thresholds and green intervals *)

(** C1. The speed precondition does not precede the rate-parameter
    divisions: [Core] evaluates them first (lines 92-102) and tests the
    speed afterwards (lines 105-114), with [<] and [>].  So whenever a
    division raises, the cycle ends in that exception with nothing
    written, whatever the speed test would have said.  With built-in
    floats a speed of exactly 0 km/h, and a speed of exactly the limit
    56.33 km/h, each end the cycle in [ZeroDivisionError], whatever the
    other inputs are; with [numpy.float64] inputs a speed of 0 yields an
    infinite [t_cr] and the cycle goes on to write a scenario.  No
    "Invalid Speed" is written in any of these cycles. *)
Theorem classify_divides_before_speed_check :
  (forall (i : DMSI.Inputs) (d v gec gs ge : num) (e : exn),
      DMSI.d_0 i = Some d -> DMSI.v_c_in i = Some v ->
      DMSI.g_e_curr i = Some gec -> DMSI.g_s_next i = Some gs ->
      DMSI.g_e_next i = Some ge ->
      DMSI.rate_thresholds d v = Exc e ->
      DMSI.Core i [] = (Raised e, []))
  /\ (forall d t0 gec gs ge,
      DMSI.Core (classify_call PyFloat d 0 t0 gec gs ge) []
      = (Raised ZeroDivisionError, []))
  /\ (forall d t0 gec gs ge,
      DMSI.Core (classify_call PyFloat d 56.33 t0 gec gs ge) []
      = (Raised ZeroDivisionError, []))
  /\ (exists th,
      DMSI.rate_thresholds (Num 100 NpFloat64) (Num 0 NpFloat64) = Val th
      /\ val (t_cr th) = infinity)
  /\ DMSI.Core (classify_call NpFloat64 100 0 5 (-1) 20 70) []
     = (Normal tt, [DMSI.scenario "Scenario 2"; DMSI.scenario_n 2;
                    DMSI.d_0_out (Num 100 NpFloat64)]).
Proof.
  split; [| split; [| split; [| split]]].
  - intros i d v gec gs ge e Hd Hv Hgec Hgs Hge He.
    unfold DMSI.Core. rewrite Hd, Hv, Hgec, Hgs, Hge.
    unfold bind, lift. rewrite He. reflexivity.
  - intros. reflexivity.
  - intros. reflexivity.
  - eexists. split; vm_compute; reflexivity.
  - vm_compute. reflexivity.
Qed.

(** C7. The green intervals are built literally: one interval
    [(g_s_next, g_e_next)] when [g_e_curr] equals the sentinel -1, else
    the two intervals [(t_0, g_e_curr)] and [(g_s_next, g_e_next)], the
    first pairing the current absolute time with [g_e_curr] as received.
    Every call that gets as far as classifying classifies against exactly
    that list. *)
Theorem classify_gamma_is_literal :
  forall (t0 : float) (gec gs ge : num),
    let gamma :=
      if (val gec =? -1)%float then [(gs, ge)]
      else [(py t0, gec); (gs, ge)] in
    DMSI.gamma_intervals (py t0) gec gs ge = gamma
    /\ forall (i : DMSI.Inputs) (d v : num) (th : Thresholds),
        DMSI.t_0 i = t0 ->
        DMSI.d_0 i = Some d -> DMSI.v_c_in i = Some v ->
        DMSI.g_e_curr i = Some gec -> DMSI.g_s_next i = Some gs ->
        DMSI.g_e_next i = Some ge ->
        DMSI.rate_thresholds d v = Val th ->
        lt (v_c_ms th) (py 0) = false ->
        gt (v_c_ms th) (v_limit_ms th) = false ->
        DMSI.Core i [] = (Normal tt, classified gamma th d).
Proof.
  intros t0 gec gs ge gamma.
  assert (Hg : DMSI.gamma_intervals (py t0) gec gs ge = gamma) by reflexivity.
  split; [exact Hg |].
  intros i d v th Ht Hd Hv Hgec Hgs Hge Hth Hlo Hhi.
  unfold DMSI.Core. rewrite Hd, Hv, Hgec, Hgs, Hge, Ht, Hg.
  unfold bind, lift. rewrite Hth, Hlo, Hhi. unfold classified.
  destruct (DMSI.identify_scenario gamma (t_cr th) (t_e th) (t_l th)) as [name n].
  reflexivity.
Qed.

(** A cycle at 0 km/h: the division [d_0_in / v_c_ms] raises. *)
Lemma classify_divides_before_speed_check_witness :
  DMSI.Core (classify_call PyFloat 100 0 5 (-1) 20 70) []
  = (Raised ZeroDivisionError, []).
Proof.
  refine (proj1 classify_divides_before_speed_check
            (classify_call PyFloat 100 0 5 (-1) 20 70)
            (py 100) (py 0) (py (-1)) (py 20) (py 70) ZeroDivisionError
            _ _ _ _ _ _); reflexivity.
Defined.

(** A cycle at 30 km/h, 100 m from the stop bar, with a current green. *)
Lemma classify_gamma_is_literal_witness :
  DMSI.Core (classify_call PyFloat 100 30 5 20 120 170) []
  = (Normal tt, [DMSI.scenario "Scenario 1"; DMSI.scenario_n 1;
                 DMSI.d_0_out (py 100)]).
Proof.
  pose proof (classify_gamma_is_literal 5 (py 20) (py 120) (py 170)) as [_ H].
  specialize (H (classify_call PyFloat 100 30 5 20 120 170) (py 100) (py 30)).
  destruct (DMSI.rate_thresholds (py 100) (py 30)) as [th|e] eqn:Hth;
    [| vm_compute in Hth; discriminate].
  rewrite (H th); try reflexivity.
  - vm_compute in Hth. injection Hth as <-. vm_compute. reflexivity.
  - vm_compute in Hth. injection Hth as <-. vm_compute. reflexivity.
  - vm_compute in Hth. injection Hth as <-. vm_compute. reflexivity.
Defined.

(** C8. The trajectory generator recomputes what the classifier
    computes: on every distance and speed the two computations of the
    speeds in m/s, [p], [q], [t_cr], [t_e] and [t_l] give the same values or
    raise the same exception, and on every time and window the two
    constructions of the green intervals give the same list. *)
Theorem planner_recomputes_classifier_quantities :
  forall (d_0 v_c t_0 g_e_curr g_s_next g_e_next : num),
    DMTG.rate_thresholds d_0 v_c = DMSI.rate_thresholds d_0 v_c
    /\ DMTG.gamma_intervals t_0 g_e_curr g_s_next g_e_next
       = DMSI.gamma_intervals t_0 g_e_curr g_s_next g_e_next.
Proof.
  intros. split.
  - unfold DMTG.rate_thresholds, DMSI.rate_thresholds.
    unfold DMTG.v_limit, DMSI.v_limit, DMTG.v_coast, DMSI.v_coast,
      DMTG.a_max, DMSI.a_max, DMTG.jerk_max, DMSI.jerk_max.
    reflexivity.
  - unfold DMTG.gamma_intervals, DMSI.gamma_intervals. reflexivity.
Qed.

(** ** The signal-phase tracker *)

Lemma record_interval_length (xs : list float) (x : float) :
  (List.length xs <= 20 -> List.length (G.record_interval xs x) <= 20)%nat.
Proof.
  intros H. unfold G.record_interval.
  destruct (Nat.ltb_spec 20 (List.length (xs ++ [x]))) as [Hlt | Hge].
  - rewrite length_app in Hlt. simpl in Hlt.
    destruct xs as [|y ys]; simpl in *; [lia |].
    rewrite length_app. simpl. lia.
  - exact Hge.
Qed.

Lemma record_interval_evicts_oldest (xs : list float) (x : float) :
  List.length xs = 20%nat -> G.record_interval xs x = tl xs ++ [x].
Proof.
  intros H. unfold G.record_interval.
  rewrite length_app, H. simpl.
  destruct xs; [discriminate | reflexivity].
Qed.

(** A cycle whose countdown equals the last one seen leaves the object as
    it is and writes the cached estimate again. *)
Lemma same_countdown_cycle (s : G.Self) (i : G.Inputs) (c : Z) :
  int (G.countdown i) = Val c ->
  last_seen s = Some c ->
  G.after i s = s
  /\ (same_intersection i ->
      G.written i s = emitted (estimate s) (G.state_name_to_number (G.current_state i))).
Proof.
  intros Hc Hlast. unfold last_seen in Hlast.
  destruct s as [[tk|] gec gs ge]; simpl in Hlast; [| discriminate].
  split.
  - tracker_unfold.
    destruct (G.Intersection_ID_matched i) as [a|]; [| reflexivity].
    destruct (G.IntersectionID_SPaT i) as [b|]; [| reflexivity].
    destruct (a =? b)%float; simpl; [| reflexivity].
    rewrite Hc. simpl. unfold G.differs. rewrite Hlast, Z.eqb_refl. simpl.
    destruct gec, gs, ge; reflexivity.
  - intros (a & b & Ha & Hb & Hab). tracker_unfold.
    rewrite Ha, Hb, Hab. simpl.
    rewrite Hc. simpl. unfold G.differs. rewrite Hlast, Z.eqb_refl. simpl.
    destruct gec, gs, ge; reflexivity.
Qed.

Lemma new_countdown_cycle (s : G.Self) (i : G.Inputs) (c : Z) :
  same_intersection i ->
  int (G.countdown i) = Val c ->
  G.differs c (last_seen s) = true ->
  let code := G.state_name_to_number (G.current_state i) in
  let h := next_history (G.t0 i) s in
  let e := G.estimate_green_window_from_countdown
             (G.t0 i) code c (of_int 500 * G.avg_tick_duration h) in
  G.after i s =
    {| G.tick := Some {| G.last_cd_tick := Some c;
                         G.last_tick_time := Some (G.t0 i);
                         G.tick_intervals := h |};
       G.g_e_curr := snd e;
       G.g_s_next := fst (fst e);
       G.g_e_next := snd (fst e) |}
  /\ G.written i s = emitted (snd e, fst (fst e), snd (fst e)) code.
Proof.
  intros (a & b & Ha & Hb & Hab) Hc Hd code h e.
  subst e h code. unfold next_history, last_seen in *.
  tracker_unfold. rewrite Ha, Hb, Hab. simpl. rewrite Hc. simpl.
  destruct s as [[tk|] gec gs ge]; simpl in *.
  - rewrite Hd.
    destruct (G.last_tick_time tk) as [last|];
      match goal with
      | |- context [G.estimate_green_window_from_countdown ?a ?b ?c ?d] =>
          destruct (G.estimate_green_window_from_countdown a b c d) as [[x y] z]
      end; simpl; destruct x, y, z; split; reflexivity.
  - match goal with
    | |- context [G.estimate_green_window_from_countdown ?a ?b ?c ?d] =>
        destruct (G.estimate_green_window_from_countdown a b c d) as [[x y] z]
    end; simpl; destruct x, y, z; split; reflexivity.
Qed.

(** Every cycle either leaves the object as it is, or it is a cycle for the
    matched intersection whose countdown differs from the last one seen. *)
Lemma cycle_cases (s : G.Self) (i : G.Inputs) :
  G.after i s = s
  \/ exists c, same_intersection i
               /\ int (G.countdown i) = Val c
               /\ G.differs c (last_seen s) = true.
Proof.
  destruct (G.Intersection_ID_matched i) as [a|] eqn:Ha;
    [| left; tracker_unfold; rewrite Ha; reflexivity].
  destruct (G.IntersectionID_SPaT i) as [b|] eqn:Hb;
    [| left; tracker_unfold; rewrite Ha, Hb; reflexivity].
  destruct (a =? b)%float eqn:Hab;
    [| left; tracker_unfold; rewrite Ha, Hb, Hab; reflexivity].
  destruct (int (G.countdown i)) as [c|e] eqn:Hc;
    [| left; tracker_unfold; rewrite Ha, Hb, Hab; simpl; rewrite Hc; reflexivity].
  destruct (G.differs c (last_seen s)) eqn:Hd.
  - right. exists c. repeat split; try assumption. exists a, b. auto.
  - left. apply (same_countdown_cycle s i c Hc).
    unfold G.differs in Hd. destruct (last_seen s) as [c'|]; [| discriminate].
    apply negb_false_iff, Z.eqb_eq in Hd. congruence.
Qed.

Lemma next_history_length (t0 : float) (s : G.Self) :
  (List.length (history s) <= 20 -> List.length (next_history t0 s) <= 20)%nat.
Proof.
  unfold history, next_history. intros H.
  destruct (G.tick s) as [tk|].
  - destruct (G.last_tick_time tk); [apply record_interval_length |]; exact H.
  - apply record_interval_length. simpl. lia.
Qed.

Lemma cycle_keeps_bound (s : G.Self) (i : G.Inputs) :
  (List.length (history s) <= 20 -> List.length (history (G.after i s)) <= 20)%nat.
Proof.
  intros H. destruct (cycle_cases s i) as [-> | (c & Hi & Hc & Hd)]; [exact H |].
  destruct (new_countdown_cycle s i c Hi Hc Hd) as [-> _].
  unfold history; simpl. apply next_history_length, H.
Qed.

Lemma run_keeps_bound (ins : list G.Inputs) :
  forall s, (List.length (history s) <= 20 -> List.length (history (G.run ins s)) <= 20)%nat.
Proof.
  induction ins as [|i rest IH]; intros s H; simpl.
  - exact H.
  - apply IH, cycle_keeps_bound, H.
Qed.

(** C9. After any sequence of cycles the tick history holds at most 20
    intervals, a full history losing its oldest entry when a new one
    arrives.  A cycle changes the object (history, cached estimate) only
    when it is for the matched intersection and its countdown differs from
    the last one seen; a cycle whose countdown equals the last one seen
    leaves the object as it is and, for the matched intersection, writes
    the cached estimate again. *)
Theorem tick_history_bounded_and_estimate_stale :
  (forall ins : list G.Inputs, (List.length (history (G.run ins G.init)) <= 20)%nat)
  /\ (forall (s : G.Self) (i : G.Inputs) (c : Z) (tk : G.TickAttrs) (last : float),
        same_intersection i ->
        int (G.countdown i) = Val c ->
        G.differs c (last_seen s) = true ->
        G.tick s = Some tk -> G.last_tick_time tk = Some last ->
        List.length (history s) = 20%nat ->
        history (G.after i s) = tl (history s) ++ [(G.t0 i - last)%float])
  /\ (forall (s : G.Self) (i : G.Inputs),
        G.after i s <> s ->
        exists c, same_intersection i
                  /\ int (G.countdown i) = Val c
                  /\ G.differs c (last_seen s) = true)
  /\ (forall (s : G.Self) (i : G.Inputs) (c : Z),
        int (G.countdown i) = Val c ->
        last_seen s = Some c ->
        G.after i s = s
        /\ (same_intersection i ->
            G.written i s
            = emitted (estimate s) (G.state_name_to_number (G.current_state i)))).
Proof.
  split; [| split; [| split]].
  - intros ins. apply run_keeps_bound. simpl. lia.
  - intros s i c tk last Hi Hc Hd Htk Hlast Hlen.
    destruct (new_countdown_cycle s i c Hi Hc Hd) as [-> _].
    unfold history in *. simpl. unfold next_history.
    rewrite Htk in *. rewrite Hlast.
    apply record_interval_evicts_oldest, Hlen.
  - intros s i Hne. destruct (cycle_cases s i) as [Heq | H]; [contradiction | exact H].
  - intros s i c. apply same_countdown_cycle.
Qed.





Lemma state_code_range (name : string) :
  let code := G.state_name_to_number name in
  red code \/ yellow code \/ green code \/ unsupported code.
Proof.
  unfold G.state_name_to_number, G.state_map, G.dict_get,
    red, yellow, green, unsupported.
  repeat match goal with
         | |- context [String.eqb ?a ?b] => destruct (String.eqb a b)
         end; tauto.
Qed.

Lemma estimate_unsupported (t0 code : float) (c : Z) (d : float) :
  unsupported code ->
  G.estimate_green_window_from_countdown t0 code c d = (None, None, None).
Proof. intros [-> | [-> | ->]]; reflexivity. Qed.

(** C3 fails: a "dark" cycle with a new countdown replaces the cached
    estimate (20, 120, 170) by three [None]s, and a "dark" cycle with the
    old countdown writes the cached estimate out again. *)
Lemma unsupported_phase_overwrites_estimate :
  ~ unsupported_phase_retains_estimate
  /\ estimate tracked_green = (Some 20, Some 120, Some 170)%float
  /\ estimate (G.after (dark_cycle 199) tracked_green) = (None, None, None)
  /\ G.written (dark_cycle 200) tracked_green
     = [G.out_g_e_curr 20; G.out_g_s_next 120; G.out_g_e_next 170; G.out_state 1].
Proof.
  assert (H1 : estimate tracked_green = (Some 20, Some 120, Some 170)%float)
    by (vm_compute; reflexivity).
  assert (H2 : estimate (G.after (dark_cycle 199) tracked_green) = (None, None, None))
    by (vm_compute; reflexivity).
  split; [| split; [exact H1 | split; [exact H2 | vm_compute; reflexivity]]].
  intros H.
  destruct (H tracked_green (dark_cycle 199)) as [He _].
  - right; left. vm_compute. reflexivity.
  - rewrite H1, H2 in He. discriminate.
Qed.

(** C3, amended.  On a cycle whose phase code is unavailable, dark or
    unrecognized: if the cycle is for the matched intersection and its
    countdown differs from the last one seen, nothing is written, the
    countdown is recorded and the cached estimate becomes three [None]s;
    if its countdown equals the last one seen, the object (hence the
    cached estimate) is left as it is.  Once the estimate is cleared,
    cycles with an unchanged countdown write nothing. *)
Theorem unsupported_phase_clears_estimate :
  forall (s : G.Self) (i : G.Inputs) (c : Z),
    unsupported (G.state_name_to_number (G.current_state i)) ->
    int (G.countdown i) = Val c ->
    (same_intersection i -> G.differs c (last_seen s) = true ->
       estimate (G.after i s) = (None, None, None)
       /\ last_seen (G.after i s) = Some c
       /\ G.written i s = []
       /\ forall j : G.Inputs,
            int (G.countdown j) = Val c ->
            G.after j (G.after i s) = G.after i s /\ G.written j (G.after i s) = [])
    /\ (last_seen s = Some c -> G.after i s = s).
Proof.
  intros s i c Hu Hc. split.
  - intros Hi Hd.
    destruct (new_countdown_cycle s i c Hi Hc Hd) as [Hs Hw].
    rewrite (estimate_unsupported _ _ _ _ Hu) in Hs, Hw. simpl in Hs, Hw.
    assert (Hl : last_seen (G.after i s) = Some c) by (rewrite Hs; reflexivity).
    assert (He : estimate (G.after i s) = (None, None, None)) by (rewrite Hs; reflexivity).
    repeat split; try assumption.
    + apply (same_countdown_cycle (G.after i s) j c); assumption.
    + destruct (cycle_cases (G.after i s) j) as [Heq | (c' & Hj & Hc' & Hd')].
      * destruct (G.Intersection_ID_matched j) as [a|] eqn:Ha;
          [| tracker_unfold; rewrite Ha; reflexivity].
        destruct (G.IntersectionID_SPaT j) as [b|] eqn:Hb;
          [| tracker_unfold; rewrite Ha, Hb; reflexivity].
        destruct (a =? b)%float eqn:Hab;
          [| tracker_unfold; rewrite Ha, Hb, Hab; reflexivity].
        destruct (same_countdown_cycle (G.after i s) j c H Hl) as [_ Hwj].
        rewrite Hwj, He; [reflexivity | exists a, b; auto].
      * rewrite H in Hc'. injection Hc' as <-.
        rewrite Hl in Hd'. unfold G.differs in Hd'.
        rewrite Z.eqb_refl in Hd'. discriminate.
  - intros Hl. apply (same_countdown_cycle s i c Hc Hl).
Qed.

(** ** The trajectory generator *)

Section Planner.

Context {L : T.NumericLib}.

(** The missing-input branch returns before the two assignments that
    follow its [return]. *)
Lemma missing_input_cycle (s : T.Self) (i : T.Inputs) :
  missing_input i ->
  T.cycle i s = (Returned tt, {| T.self := s; T.outputs := []; T.files := [] |}).
Proof.
  unfold missing_input. intros H. planner_unfold.
  destruct (T.scenario i), (T.d_0 i), (T.g_e_curr i), (T.g_s_next i), (T.g_e_next i);
    try reflexivity; intuition discriminate.
Qed.

(** Once a profile is cached, a cycle looks up a sample and assigns
    nothing. *)
Lemma ready_cycle (s : T.Self) (i : T.Inputs) :
  T.precomputed_velocity_profile s <> None -> T.after i s = s.
Proof.
  intros Hready.
  destruct s as [[profile|] start end_ dt last]; [clear Hready | contradiction].
  planner_unfold.
  destruct (T.scenario i), (T.d_0 i), (T.g_e_curr i), (T.g_s_next i), (T.g_e_next i);
    try reflexivity.
  simpl. repeat lookup_step; reflexivity.
Qed.

Lemma ready_run (ins : list T.Inputs) :
  forall s, T.precomputed_velocity_profile s <> None -> T.run ins s = s.
Proof.
  induction ins as [|i rest IH]; intros s H; simpl; [reflexivity |].
  rewrite (ready_cycle s i H). apply IH, H.
Qed.

Lemma run_app (ins1 ins2 : list T.Inputs) (s : T.Self) :
  T.run (ins1 ++ ins2) s = T.run ins2 (T.run ins1 s).
Proof. unfold T.run. apply fold_left_app. Qed.

End Planner.

(** C4. Once a cycle has cached a profile, no later cycle assigns the
    cached profile, its start or its end again, whatever that cycle's
    scenario and inputs are: the object stays as the first successful
    computation left it.  The reset written after the [return] of the
    missing-input branch is never executed: that branch leaves the object
    untouched and writes nothing. *)
Theorem profile_is_computed_once :
  forall L : T.NumericLib,
    (forall (s : T.Self) (i : T.Inputs),
        T.precomputed_velocity_profile s <> None -> T.after i s = s)
    /\ (forall (ins1 ins2 : list T.Inputs),
        T.precomputed_velocity_profile (T.run ins1 T.Birth) <> None ->
        T.run (ins1 ++ ins2) T.Birth = T.run ins1 T.Birth)
    /\ (forall (s : T.Self) (i : T.Inputs),
        missing_input i ->
        T.cycle i s = (Returned tt, {| T.self := s; T.outputs := []; T.files := [] |})).
Proof.
  intros L. split; [| split].
  - apply ready_cycle.
  - intros ins1 ins2 H. rewrite run_app. apply ready_run, H.
  - apply missing_input_cycle.
Qed.

(** *** Arrival times and the feasible set *)

Lemma scen2_intersections_empty (gamma : list (num * num)) (t_e t_cr : num) :
  T.scen2_intersections t_e t_cr gamma = [] <-> ~ early_arrival_green gamma t_cr t_e.
Proof.
  rewrite <- scenario2_loop_spec.
  induction gamma as [|[s e] rest IH]; simpl.
  - split; [discriminate | reflexivity].
  - destruct (lt (max t_e s) (min t_cr e)).
    + split; [discriminate | intros H; exfalso; apply H; reflexivity].
    + exact IH.
Qed.

Lemma scen4_intersections_empty (gamma : list (num * num)) (t_l t_cr : num) :
  T.scen4_intersections t_l t_cr gamma = [] <-> ~ late_arrival_green gamma t_cr t_l.
Proof.
  rewrite <- overlap_loop_spec.
  induction gamma as [|[s e] rest IH]; simpl.
  - split; [discriminate | reflexivity].
  - destruct (lt (max t_cr s) (min t_l e)).
    + split; [discriminate | intros H; exfalso; apply H; reflexivity].
    + exact IH.
Qed.

Section PlannerFailures.

Context {L : T.NumericLib}.

(** Without a feasible arrival time the computation executes a bare
    [return]: its value is [None]. *)
Lemma compute_without_arrival
    (t_0 d_0 v g_e_curr g_s_next g_e_next : num) (label : string)
    (th : Thresholds) (w : T.World) :
  T.rate_thresholds d_0 v = Val th ->
  no_feasible_arrival label (T.gamma_intervals t_0 g_e_curr g_s_next g_e_next) th ->
  T.compute_velocity_profile t_0 d_0 (Some v) g_e_curr g_s_next g_e_next label w
  = (Returned None, w).
Proof.
  intros Hth [[-> H] | [-> H]];
    unfold T.compute_velocity_profile, bind, lift; simpl; rewrite Hth; simpl.
  - apply scen2_intersections_empty in H.
    unfold T.calculate_scen2_t_arr. rewrite H. reflexivity.
  - apply scen4_intersections_empty in H.
    unfold T.calculate_scen4_t_arr. rewrite H. reflexivity.
Qed.

End PlannerFailures.

(** C2. What the code does on a Scenario 2 or Scenario 4 cycle with no
    feasible arrival time while no profile is cached: the bare [return]
    of [compute_velocity_profile] is unpacked as a triple by [Core], so the
    cycle ends in [TypeError], with nothing written; the object is left as
    it was, so the next cycle computes again. *)
Theorem no_feasible_arrival_raises_TypeError :
  forall (L : T.NumericLib) (s : T.Self) (label : string)
         (d v gec gs ge : num) (t0 : float) (th : Thresholds),
    T.precomputed_velocity_profile s = None ->
    T.rate_thresholds d v = Val th ->
    no_feasible_arrival label (T.gamma_intervals (py t0) gec gs ge) th ->
    T.cycle (plan_call label d v t0 gec gs ge) s
    = (Raised TypeError, {| T.self := s; T.outputs := []; T.files := [] |}).
Proof.
  intros L s label d v gec gs ge t0 th Hs Hth Hno.
  planner_unfold. simpl. rewrite Hs.
  rewrite (compute_without_arrival _ _ _ _ _ _ _ _ _ Hth Hno). reflexivity.
Qed.

(** *** Labels outside the four scenarios *)

Lemma unrecognized_eqb (label : string) :
  ~ In label recognized_labels ->
  (label =? "Scenario 1") = false /\ (label =? "Scenario 2") = false
  /\ (label =? "Scenario 3") = false /\ (label =? "Scenario 4") = false.
Proof.
  unfold recognized_labels. simpl. intros H.
  repeat split; apply String.eqb_neq; intros ->; tauto.
Qed.

Section UnrecognizedLabel.

Context {L : T.NumericLib}.

Variable label : string.
Hypothesis Hlabel : ~ In label recognized_labels.

(** No synthesis branch is taken: the profile stays empty and [t_end]
    unassigned, so whatever precedes the final [return] succeeds or not,
    the call raises. *)
Lemma compute_unrecognized
    (t_0 d_0 : num) (v_c : option num) (gec gs ge : num) (w : T.World) :
  T.compute_velocity_profile t_0 d_0 v_c gec gs ge label w
  = match v_c with
    | None => (Raised TypeError, w)
    | Some v =>
        match T.rate_thresholds d_0 v with
        | Exc e => (Raised e, w)
        | Val _ =>
            match round (val ge) with
            | Exc e => (Raised e, w)
            | Val _ => (Raised UnboundLocalError, saved_empty w label t_0 gec gs ge v)
            end
        end
    end.
Proof.
  destruct (unrecognized_eqb label Hlabel) as (H1 & H2 & H3 & H4).
  unfold T.compute_velocity_profile, T.save_profile_to_file, bind, lift, modify, ret.
  destruct v_c as [v|]; simpl; [| reflexivity].
  destruct (T.rate_thresholds d_0 v) as [th|e]; simpl; [| reflexivity].
  rewrite H1, H2, H3, H4. simpl.
  destruct (round (val ge)); reflexivity.
Qed.

Lemma compute_unrecognized_raises
    (t_0 d_0 : num) (v_c : option num) (gec gs ge : num) (w : T.World) :
  exists e w',
    T.compute_velocity_profile t_0 d_0 v_c gec gs ge label w = (Raised e, w')
    /\ T.self w' = T.self w
    /\ T.outputs w' = T.outputs w
    /\ forall r, In r (T.files w') -> In r (T.files w) \/ T.saved_profile r = [].
Proof.
  rewrite compute_unrecognized.
  destruct v_c as [v|]; [| exists TypeError, w; auto].
  destruct (T.rate_thresholds d_0 v) as [th|e]; [| exists e, w; auto].
  destruct (round (val ge)) as [z|e]; [| exists e, w; auto].
  eexists _, _. split; [reflexivity |]. simpl. repeat split.
  intros r Hr. apply in_app_or in Hr. destruct Hr as [Hr | [<- | []]]; auto.
Qed.

Lemma cycle_unrecognized (i : T.Inputs) (s : T.Self) :
  T.scenario i = Some label ->
  T.precomputed_velocity_profile s = None ->
  T.after i s = s
  /\ T.outputs (snd (T.cycle i s)) = []
  /\ fst (T.cycle i s) <> Normal tt.
Proof.
  intros Hsc Hs.
  assert (Hmiss : missing_input i ->
                  T.after i s = s
                  /\ T.outputs (snd (T.cycle i s)) = []
                  /\ fst (T.cycle i s) <> Normal tt).
  { intros Hm. unfold T.after. rewrite (missing_input_cycle s i Hm).
    simpl. repeat split. discriminate. }
  unfold missing_input in Hmiss.
  destruct (T.d_0 i) as [d|] eqn:Hd; [| apply Hmiss; auto].
  destruct (T.g_e_curr i) as [gec|] eqn:Hgec; [| apply Hmiss; auto].
  destruct (T.g_s_next i) as [gs|] eqn:Hgs; [| apply Hmiss; auto].
  destruct (T.g_e_next i) as [ge|] eqn:Hge; [| apply Hmiss; do 4 right; auto].
  clear Hmiss.
  destruct (compute_unrecognized_raises (py (T.t_0 i)) d (T.v_c i) gec gs ge
              {| T.self := s; T.outputs := []; T.files := [] |})
    as (e & w' & Hc & Hself & Hout & _).
  planner_unfold. rewrite Hsc, Hd, Hgec, Hgs, Hge. simpl. rewrite Hs, Hc. simpl.
  repeat split; try assumption. discriminate.
Qed.

End UnrecognizedLabel.

(** C10. For every scenario label other than the four recognized
    strings, [compute_velocity_profile] takes no synthesis branch: the
    profile handed to [save_profile_to_file] is empty, [t_end] is
    unassigned at the final [return], and the call raises
    ([UnboundLocalError] when everything before the [return] succeeds).  A
    cycle with such a label and no cached profile therefore writes no
    velocity and leaves the object as it was.  The classifier itself
    writes two such labels on its scenario output, "Invalid Speed" and
    "Missing Inputs". *)
Theorem unrecognized_label_yields_no_velocity :
  forall L : T.NumericLib,
    (forall label : string,
        ~ In label recognized_labels ->
        (forall t_0 d_0 v_c gec gs ge w,
            exists e w',
              T.compute_velocity_profile t_0 d_0 v_c gec gs ge label w = (Raised e, w')
              /\ T.self w' = T.self w
              /\ T.outputs w' = T.outputs w
              /\ forall r, In r (T.files w') -> In r (T.files w) \/ T.saved_profile r = [])
        /\ (forall t_0 d_0 v gec gs ge w th z,
            T.rate_thresholds d_0 v = Val th ->
            round (val ge) = Val z ->
            T.compute_velocity_profile t_0 d_0 (Some v) gec gs ge label w
            = (Raised UnboundLocalError, saved_empty w label t_0 gec gs ge v))
        /\ (forall i s,
            T.scenario i = Some label ->
            T.precomputed_velocity_profile s = None ->
            T.after i s = s
            /\ T.outputs (snd (T.cycle i s)) = []
            /\ fst (T.cycle i s) <> Normal tt))
    /\ ~ In "Invalid Speed" recognized_labels
    /\ ~ In "Missing Inputs" recognized_labels
    /\ DMSI.Core (classify_call PyFloat 100 (-5) 5 (-1) 20 70) []
       = (Returned tt, [DMSI.scenario "Invalid Speed"; DMSI.d_0_out (py 100)])
    /\ DMSI.Core {| DMSI.d_0 := None; DMSI.v_c_in := Some (py 30); DMSI.t_0 := 5;
                    DMSI.g_e_curr := Some (py (-1)); DMSI.g_s_next := Some (py 20);
                    DMSI.g_e_next := Some (py 70) |} []
       = (Returned tt, [DMSI.scenario "Missing Inputs"])
    /\ T.cycle (plan_call "Invalid Speed" (py 100) (py (-5)) 5 (py (-1)) (py 20) (py 70))
               T.Birth
       = (Raised UnboundLocalError,
          saved_empty {| T.self := T.Birth; T.outputs := []; T.files := [] |}
                      "Invalid Speed" (py 5) (py (-1)) (py 20) (py 70) (py (-5))).
Proof.
  intros L.
  assert (Hinv : ~ In "Invalid Speed" recognized_labels)
    by (unfold recognized_labels; simpl; intuition discriminate).
  assert (Hmis : ~ In "Missing Inputs" recognized_labels)
    by (unfold recognized_labels; simpl; intuition discriminate).
  split; [| split; [exact Hinv | split; [exact Hmis | split; [| split]]]].
  - intros label Hlabel. split; [| split].
    + intros. apply compute_unrecognized_raises, Hlabel.
    + intros t_0 d_0 v gec gs ge w th z Hth Hz.
      rewrite (compute_unrecognized label Hlabel), Hth, Hz. reflexivity.
    + intros i s. apply cycle_unrecognized, Hlabel.
  - vm_compute. reflexivity.
  - vm_compute. reflexivity.
  - planner_unfold. simpl.
    rewrite (compute_unrecognized "Invalid Speed" Hinv).
    vm_compute. reflexivity.
Qed.

(** ** Closed instances *)

(** The four scenarios all occur: with [t_e = 9], [t_cr = 12], [t_l = 23],
    a green window around 12 s, one ending at 11 s, none, and one opening
    at 15 s. *)
Example identify_scenario_each :
  DMSI.identify_scenario [(py 5, py 20)] (py 12) (py 9) (py 23) = ("Scenario 1", 1%Z)
  /\ DMSI.identify_scenario [(py 5, py 11)] (py 12) (py 9) (py 23) = ("Scenario 2", 2%Z)
  /\ DMSI.identify_scenario [(py 30, py 80)] (py 12) (py 9) (py 23) = ("Scenario 3", 3%Z)
  /\ DMSI.identify_scenario [(py 15, py 65)] (py 12) (py 9) (py 23) = ("Scenario 4", 4%Z).
Proof. repeat split; vm_compute; reflexivity. Qed.

Lemma same_intersection_7 (t0 : float) (name : string) (cd : float) :
  same_intersection {| G.t0 := t0; G.current_state := name; G.countdown := cd;
                       G.Intersection_ID_matched := Some 7%float;
                       G.IntersectionID_SPaT := Some 7%float |}.
Proof. exists 7%float, 7%float. repeat split. Qed.


Lemma unsupported_phase_clears_estimate_witness :
  estimate (G.after (dark_cycle 199) tracked_green) = (None, None, None)
  /\ G.written (dark_cycle 199) tracked_green = [].
Proof.
  destruct (unsupported_phase_clears_estimate tracked_green (dark_cycle 199) 199%Z)
    as [H _].
  - right; left. vm_compute. reflexivity.
  - vm_compute. reflexivity.
  - destruct H as (He & _ & Hw & _).
    + apply same_intersection_7.
    + vm_compute. reflexivity.
    + split; assumption.
Defined.

Lemma tick_history_bounded_and_estimate_stale_witness :
  G.after (dark_cycle 200) tracked_green = tracked_green.
Proof.
  refine (proj1 (proj2 (proj2 (proj2 tick_history_bounded_and_estimate_stale))
                   tracked_green (dark_cycle 200) 200%Z _ _)).
  - vm_compute. reflexivity.
  - vm_compute. reflexivity.
Defined.

Lemma no_feasible_arrival_raises_TypeError_witness :
  @T.cycle example_lib (far_window "Scenario 2") T.Birth
  = (Raised TypeError, {| T.self := T.Birth; T.outputs := []; T.files := [] |}).
Proof.
  eapply (no_feasible_arrival_raises_TypeError example_lib T.Birth "Scenario 2").
  - reflexivity.
  - vm_compute. reflexivity.
  - left. split; [reflexivity |].
    rewrite <- scenario2_loop_spec. vm_compute. discriminate.
Defined.

Lemma profile_is_computed_once_witness :
  @T.run example_lib [far_window "Scenario 1"; far_window "Scenario 3"] T.Birth
  = @T.run example_lib [far_window "Scenario 1"] T.Birth.
Proof.
  refine (proj1 (proj2 (profile_is_computed_once example_lib))
            [far_window "Scenario 1"] [far_window "Scenario 3"] _).
  vm_compute. discriminate.
Defined.

Lemma unrecognized_label_yields_no_velocity_witness :
  @T.after example_lib (far_window "Invalid Speed") T.Birth = T.Birth
  /\ T.outputs (snd (@T.cycle example_lib (far_window "Invalid Speed") T.Birth)) = [].
Proof.
  destruct (proj1 (unrecognized_label_yields_no_velocity example_lib) "Invalid Speed")
    as (_ & _ & H).
  - unfold recognized_labels. simpl. intuition discriminate.
  - destruct (H (far_window "Invalid Speed") T.Birth) as (H1 & H2 & _);
      [reflexivity | reflexivity | split; assumption].
Defined.

(* ================================================================== *)
(** * Further properties *)
(* ================================================================== *)

(** ** Hexadecimal text and byte arrays *)

Lemma remove_app (c : ascii) (a b : string) :
  H.remove c (a ++ b) = (H.remove c a ++ H.remove c b)%string.
Proof.
  induction a as [|x a IH]; simpl; [reflexivity |].
  destruct (Ascii.eqb x c); simpl; rewrite IH; reflexivity.
Qed.

Lemma cleaned_app (a b : string) :
  H.cleaned (a ++ b) = (H.cleaned a ++ H.cleaned b)%string.
Proof. unfold H.cleaned. rewrite !remove_app. reflexivity. Qed.

Lemma cleaned_blank (c : ascii) (s : string) :
  blank c -> H.cleaned (String c s) = H.cleaned s.
Proof. intros [-> | [-> | [-> | ->]]]; reflexivity. Qed.

Lemma mod2_SS (n : nat) : (S (S n) mod 2 = n mod 2)%nat.
Proof.
  rewrite <- (Nat.Div0.mod_add n 1 2). f_equal. lia.
Qed.

Lemma reads_back_all (b : N) : (b < 256)%N -> reads_back b = true.
Proof.
  intros Hb.
  assert (Hall : forallb reads_back (map N.of_nat (seq 0 256)) = true)
    by (vm_compute; reflexivity).
  rewrite forallb_forall in Hall. apply Hall.
  apply in_map_iff. exists (N.to_nat b). split; [apply N2Nat.id |].
  apply in_seq. lia.
Qed.

(** What [reads_back] says, spelled out. *)
Lemma format_02x_shape (b : N) :
  (b < 256)%N ->
  exists c1 c2,
    MD_viewer.format_02x b = String c1 (String c2 EmptyString)
    /\ H.char_in c1 H.hex_digits = true /\ H.char_in c2 H.hex_digits = true
    /\ H.cleaned (String c1 (String c2 EmptyString)) = String c1 (String c2 EmptyString)
    /\ H.int16 (String c1 (String c2 EmptyString)) = Val b.
Proof.
  intros Hb. pose proof (reads_back_all b Hb) as H. unfold reads_back in H.
  destruct (MD_viewer.format_02x b) as [|c1 [|c2 [|]]]; try discriminate.
  exists c1, c2.
  apply andb_prop in H. destruct H as [H H4].
  apply andb_prop in H. destruct H as [H H3].
  apply andb_prop in H. destruct H as [H1 H2].
  apply String.eqb_eq in H3.
  destruct (H.int16 (String c1 (String c2 ""))) as [z|]; [| discriminate].
  apply N.eqb_eq in H4. subst z. auto.
Qed.

(** The hexadecimal text of a byte array is clean, made of digits, of even
    length, and its two-character slices read back as the array. *)
Lemma join_hex_reads_back (data : list N) :
  uint8 data ->
  let s := MD_viewer.join_hex data in
  H.cleaned s = s /\ H.all_hex s = true
  /\ (String.length s mod 2 = 0)%nat
  /\ H.ints (H.slices s) = Val data.
Proof.
  induction 1 as [|b rest Hb Hrest IH]; cbn zeta.
  - repeat split.
  - cbn [MD_viewer.join_hex].
    destruct (format_02x_shape b Hb) as (c1 & c2 & -> & H1 & H2 & H3 & H4).
    destruct IH as (I1 & I2 & I3 & I4).
    change (String c1 (String c2 "") ++ MD_viewer.join_hex rest)%string
      with (String c1 (String c2 (MD_viewer.join_hex rest))).
    split; [| split; [| split]].
    + change (String c1 (String c2 (MD_viewer.join_hex rest)))
        with (String c1 (String c2 "") ++ MD_viewer.join_hex rest)%string.
      rewrite cleaned_app, H3, I1. reflexivity.
    + cbn [H.all_hex]. rewrite H1, H2, I2. reflexivity.
    + cbn [String.length]. rewrite mod2_SS. exact I3.
    + cbn [H.slices H.ints]. rewrite H4, I4. reflexivity.
Qed.

Lemma joined_round_trip (data : list N) :
  uint8 data -> data <> [] ->
  H.to_byte_string (MD_viewer.join_hex data) = Val data.
Proof.
  intros Hdata Hne. destruct data as [|b rest]; [contradiction |].
  unfold H.to_byte_string.
  destruct (join_hex_reads_back (b :: rest) Hdata) as (H1 & H2 & H3 & H4).
  rewrite H1. unfold H.valid. rewrite H2, H3.
  destruct (format_02x_shape b) as (c1 & c2 & Hf & _);
    [inversion Hdata; assumption |].
  cbn [MD_viewer.join_hex] in *. rewrite Hf in *. simpl. exact H4.
Qed.

(** X1. Bytes written as hexadecimal text by [to_hex_string] (of
    [MD_viewer] or of [UBX_player]) and read by
    [Hex_to_Byte.to_byte_string] come back unchanged; a missing or empty
    array, written as one blank (respectively as the empty text), comes
    back as the empty array. *)
Theorem hex_text_round_trip :
  (forall data : list N,
      uint8 data ->
      H.to_byte_string (MD_viewer.to_hex_string (Some data)) = Val data
      /\ H.to_byte_string (UBX_player.to_hex_string (Some data)) = Val data)
  /\ H.to_byte_string (MD_viewer.to_hex_string None) = Val []
  /\ H.to_byte_string (UBX_player.to_hex_string None) = Val [].
Proof.
  split; [| split; reflexivity].
  intros data Hdata. destruct data as [|b rest]; [split; reflexivity |].
  split; apply (joined_round_trip (b :: rest) Hdata); discriminate.
Qed.

Lemma hex_text_round_trip_witness :
  H.to_byte_string (MD_viewer.to_hex_string (Some [0; 10; 255; 16]%N))
  = Val [0; 10; 255; 16]%N.
Proof.
  apply (proj1 (proj1 hex_text_round_trip [0; 10; 255; 16]%N
                  ltac:(repeat constructor))).
Defined.

Lemma hex_digit_value (c : ascii) :
  H.char_in c H.hex_digits = true ->
  exists d, H.digit_value c = Some d /\ (d < 16)%N.
Proof.
  unfold H.hex_digits. cbn [H.char_in]. intros Hc.
  repeat match type of Hc with
         | (_ || _) = true =>
             apply orb_prop in Hc; destruct Hc as [Hc | Hc];
             [apply Ascii.eqb_eq in Hc; subst c; vm_compute;
              eexists; split; [reflexivity | reflexivity] |]
         end.
  discriminate.
Qed.

Lemma int16_pair (c1 c2 : ascii) :
  H.char_in c1 H.hex_digits = true -> H.char_in c2 H.hex_digits = true ->
  exists b, H.int16 (String c1 (String c2 EmptyString)) = Val b /\ (b < 256)%N.
Proof.
  intros H1 H2.
  destruct (hex_digit_value c1 H1) as (d1 & E1 & B1).
  destruct (hex_digit_value c2 H2) as (d2 & E2 & B2).
  exists (16 * (16 * 0 + d1) + d2)%N. split; [| lia].
  unfold H.int16. cbn [H.int16_from]. rewrite E1, E2. reflexivity.
Qed.

Lemma ints_slices_hex (n : nat) :
  forall s : string,
    (String.length s <= n)%nat ->
    H.all_hex s = true -> (String.length s mod 2 = 0)%nat ->
    exists bytes,
      H.ints (H.slices s) = Val bytes /\ uint8 bytes
      /\ (2 * List.length bytes = String.length s)%nat.
Proof.
  induction n as [|n IH]; intros s Hn Hhex Heven.
  - destruct s; [| simpl in Hn; lia].
    exists []. repeat split. constructor.
  - destruct s as [|c1 [|c2 rest]].
    + exists []. repeat split. constructor.
    + discriminate.
    + cbn [H.all_hex] in Hhex.
      apply andb_prop in Hhex. destruct Hhex as [H1 Hhex].
      apply andb_prop in Hhex. destruct Hhex as [H2 Hhex].
      cbn [String.length] in Heven, Hn. rewrite mod2_SS in Heven.
      destruct (IH rest) as (bytes & Hb & Hu & Hl); [lia | assumption | assumption |].
      destruct (int16_pair c1 c2 H1 H2) as (b & Eb & Bb).
      exists (b :: bytes). cbn [H.slices H.ints]. rewrite Eb, Hb.
      repeat split; [constructor; assumption | cbn [List.length String.length]; lia].
Qed.

(** X2. [to_byte_string] never raises and always yields a byte array.
    When the text, once cleaned of blanks, line feeds, carriage returns and
    tabs, is non-empty, of even length and made of hexadecimal digits, the
    array has one byte per two characters; otherwise it is empty. *)
Theorem to_byte_string_shape :
  forall hex_str : string,
    exists bytes,
      H.to_byte_string hex_str = Val bytes
      /\ uint8 bytes
      /\ (if H.valid (H.cleaned hex_str)
          then (2 * List.length bytes = String.length (H.cleaned hex_str))%nat
          else bytes = []).
Proof.
  intros hex_str. unfold H.to_byte_string.
  destruct (H.valid (H.cleaned hex_str)) eqn:Hv.
  - unfold H.valid in Hv.
    apply andb_prop in Hv. destruct Hv as [Hv Hhex].
    apply andb_prop in Hv. destruct Hv as [_ Heven].
    apply Nat.eqb_eq in Heven.
    destruct (ints_slices_hex _ (H.cleaned hex_str) (Nat.le_refl _) Hhex Heven)
      as (bytes & Hb & Hu & Hl).
    exists bytes. auto.
  - exists []. repeat split. constructor.
Qed.

(** X3. Blanks, line feeds, carriage returns and tabs anywhere in the
    text do not change what [to_byte_string] yields. *)
Theorem to_byte_string_ignores_blanks :
  forall (a b : string) (c : ascii),
    blank c ->
    H.to_byte_string (a ++ String c b) = H.to_byte_string (a ++ b).
Proof.
  intros a b c Hc. unfold H.to_byte_string.
  rewrite !cleaned_app, (cleaned_blank c b Hc). reflexivity.
Qed.

Lemma to_byte_string_ignores_blanks_witness :
  H.to_byte_string ("0a" ++ String "010" "ff") = H.to_byte_string ("0a" ++ "ff").
Proof.
  apply to_byte_string_ignores_blanks. right; left. reflexivity.
Defined.

(** ** The order of doubles *)

Lemma SFcompare_lt_trans (a b c : spec_float) :
  SFcompare a b = Some Lt -> SFcompare b c = Some Lt -> SFcompare a c = Some Lt.
Proof.
  destruct a as [sa|sa| |sa ma ea], b as [sb|sb| |sb mb eb], c as [sc|sc| |sc mc ec];
    simpl; try discriminate; try reflexivity;
    try (destruct sa; simpl; try discriminate; try reflexivity);
    try (destruct sb; simpl; try discriminate; try reflexivity);
    try (destruct sc; simpl; try discriminate; try reflexivity).
  all: change (Pos.compare_cont Eq) with Pos.compare.
  all: intros H1 H2; injection H1 as H1; injection H2 as H2; f_equal.
  all: destruct (Z.compare_spec ea eb), (Z.compare_spec eb ec);
         try discriminate; destruct (Z.compare_spec ea ec);
         try reflexivity; try lia; subst.
  all: try (destruct (Pos.compare_spec ma mb); try discriminate;
            destruct (Pos.compare_spec mb mc); try discriminate;
            destruct (Pos.compare_spec ma mc); try reflexivity; simpl; lia).
Qed.

Lemma SFcompare_lt_irrefl (a : spec_float) : SFcompare a a <> Some Lt.
Proof.
  destruct a as [s|s| |s m e]; simpl; try discriminate;
    try (destruct s; discriminate).
  change (Pos.compare_cont Eq) with Pos.compare.
  rewrite Z.compare_refl, Pos.compare_refl. destruct s; discriminate.
Qed.

Lemma ltb_trans (x y z : float) :
  (x <? y)%float = true -> (y <? z)%float = true -> (x <? z)%float = true.
Proof.
  rewrite !ltb_spec. unfold SFltb.
  destruct (SFcompare (Prim2SF x) (Prim2SF y)) as [[]|] eqn:H1; try discriminate.
  destruct (SFcompare (Prim2SF y) (Prim2SF z)) as [[]|] eqn:H2; try discriminate.
  rewrite (SFcompare_lt_trans _ _ _ H1 H2). reflexivity.
Qed.

Lemma ltb_irrefl (x : float) : (x <? x)%float = false.
Proof.
  rewrite ltb_spec. unfold SFltb.
  pose proof (SFcompare_lt_irrefl (Prim2SF x)) as H.
  destruct (SFcompare (Prim2SF x) (Prim2SF x)) as [[]|]; congruence.
Qed.

Lemma ltb_leb (x y : float) : (x <? y)%float = true -> (x <=? y)%float = true.
Proof.
  rewrite ltb_spec, leb_spec. unfold SFltb, SFleb.
  destruct (SFcompare (Prim2SF x) (Prim2SF y)) as [[]|]; congruence.
Qed.

Lemma lt_trans (a b c : num) : lt a b = true -> lt b c = true -> lt a c = true.
Proof. apply ltb_trans. Qed.

Lemma lt_irrefl (a : num) : lt a a = false.
Proof. apply ltb_irrefl. Qed.

(** ** Arrival times are least overlap starts *)

(** [min(xs)] as Python folds it: the result is an element, and no element
    is below it. *)
Lemma fold_min_least (rest : list num) :
  forall cur : num,
    let r := fold_left min rest cur in
    In r (cur :: rest)
    /\ (lt r cur = true \/ r = cur)
    /\ forall y, In y rest -> lt y r = false.
Proof.
  induction rest as [|y rest IH]; intros cur; simpl.
  - split; [left; reflexivity | split; [right; reflexivity | intros y []]].
  - destruct (IH (min cur y)) as (Hin & Hle & Hrest).
    set (r := fold_left min rest (min cur y)) in *.
    unfold min in Hin, Hle. destruct (lt y cur) eqn:Hy.
    + split; [destruct Hin as [<- | Hin]; auto |].
      split.
      * left. destruct Hle as [Hlt | ->]; [exact (lt_trans _ _ _ Hlt Hy) | exact Hy].
      * intros z [<- | Hz]; [| apply Hrest, Hz].
        destruct Hle as [Hlt | ->]; [| apply lt_irrefl].
        destruct (lt y r) eqn:Hyr; [| reflexivity].
        rewrite <- (lt_irrefl y). symmetry. exact (lt_trans _ _ _ Hyr Hlt).
    + split; [destruct Hin as [<- | Hin]; auto |].
      split; [exact Hle |].
      intros z [<- | Hz]; [| apply Hrest, Hz].
      destruct Hle as [Hlt | ->]; [| exact Hy].
      destruct (lt y r) eqn:Hyr; [| reflexivity].
      rewrite <- Hy. symmetry. exact (lt_trans _ _ _ Hyr Hlt).
Qed.

Lemma min_or_none_least (xs : list num) :
  match T.min_or_none xs with
  | Some t => In t xs /\ forall x, In x xs -> lt x t = false
  | None => xs = []
  end.
Proof.
  destruct xs as [|x0 rest]; simpl; [reflexivity |].
  destruct (fold_min_least rest x0) as (Hin & Hle & Hrest).
  split; [exact Hin |].
  intros x [<- | Hx]; [| apply Hrest, Hx].
  destruct Hle as [Hlt | ->]; [| apply lt_irrefl].
  destruct (lt x0 (fold_left min rest x0)) eqn:Hx; [| reflexivity].
  rewrite <- (lt_irrefl x0). symmetry. exact (lt_trans _ _ _ Hx Hlt).
Qed.

Lemma scen2_intersections_spec (t_e t_cr : num) (gamma : list (num * num)) (x : num) :
  In x (T.scen2_intersections t_e t_cr gamma) <-> overlap_start t_e t_cr gamma x.
Proof.
  unfold overlap_start. induction gamma as [|[s e] rest IH]; simpl.
  - split; [intros [] | intros (s & e & [] & _)].
  - destruct (lt (max t_e s) (min t_cr e)) eqn:Hse; simpl; rewrite IH; split.
    + intros [<- | (s' & e' & Hin & H)]; [exists s, e | exists s', e']; auto.
    + intros (s' & e' & [Heq | Hin] & Hx & Hlt).
      * inversion Heq; subst. left; reflexivity.
      * right. exists s', e'. auto.
    + intros (s' & e' & Hin & H). exists s', e'. auto.
    + intros (s' & e' & [Heq | Hin] & Hx & Hlt).
      * inversion Heq; subst. congruence.
      * exists s', e'. auto.
Qed.

Lemma scen4_intersections_spec (t_l t_cr : num) (gamma : list (num * num)) (x : num) :
  In x (T.scen4_intersections t_l t_cr gamma) <-> overlap_start t_cr t_l gamma x.
Proof.
  unfold overlap_start. induction gamma as [|[s e] rest IH]; simpl.
  - split; [intros [] | intros (s & e & [] & _)].
  - destruct (lt (max t_cr s) (min t_l e)) eqn:Hse; simpl; rewrite IH; split.
    + intros [<- | (s' & e' & Hin & H)]; [exists s, e | exists s', e']; auto.
    + intros (s' & e' & [Heq | Hin] & Hx & Hlt).
      * inversion Heq; subst. left; reflexivity.
      * right. exists s', e'. auto.
    + intros (s' & e' & Hin & H). exists s', e'. auto.
    + intros (s' & e' & [Heq | Hin] & Hx & Hlt).
      * inversion Heq; subst. congruence.
      * exists s', e'. auto.
Qed.

(** X4. The arrival time of Scenario 2 is the least [max(t_e, s)] over
    the green intervals [(s, e)] with [max(t_e, s) < min(t_cr, e)], and
    that of Scenario 4 the least [max(t_cr, s)] over those with
    [max(t_cr, s) < min(t_l, e)]: it is one of these values and none of them
    is below it; the result is [None] exactly when there is no such
    interval. *)
Theorem arrival_time_is_least_overlap_start :
  forall (t_e t_cr t_l : num) (gamma : list (num * num)),
    least_overlap_start t_e t_cr gamma (T.calculate_scen2_t_arr t_e t_cr gamma)
    /\ least_overlap_start t_cr t_l gamma (T.calculate_scen4_t_arr t_l t_cr gamma).
Proof.
  intros t_e t_cr t_l gamma.
  unfold T.calculate_scen2_t_arr, T.calculate_scen4_t_arr, least_overlap_start.
  split.
  - pose proof (min_or_none_least (T.scen2_intersections t_e t_cr gamma)) as H.
    destruct (T.min_or_none (T.scen2_intersections t_e t_cr gamma)) as [t|].
    + destruct H as [Hin Hmin]. split; [apply scen2_intersections_spec, Hin |].
      intros x Hx. apply Hmin, scen2_intersections_spec, Hx.
    + intros x Hx. apply scen2_intersections_spec in Hx. rewrite H in Hx. exact Hx.
  - pose proof (min_or_none_least (T.scen4_intersections t_l t_cr gamma)) as H.
    destruct (T.min_or_none (T.scen4_intersections t_l t_cr gamma)) as [t|].
    + destruct H as [Hin Hmin]. split; [apply scen4_intersections_spec, Hin |].
      intros x Hx. apply Hmin, scen4_intersections_spec, Hx.
    + intros x Hx. apply scen4_intersections_spec in Hx. rewrite H in Hx. exact Hx.
Qed.

(** X5. The generator's arrival-time search agrees with the classifier:
    whenever [identify_scenario] answers "Scenario 2" on some intervals and
    thresholds, [calculate_scen2_t_arr] finds an arrival time on the same
    data, and whenever it answers "Scenario 4", [calculate_scen4_t_arr]
    does. *)
Theorem classified_scenario_has_arrival_time :
  forall (gamma : list (num * num)) (t_cr t_e t_l : num),
    (DMSI.identify_scenario gamma t_cr t_e t_l = ("Scenario 2", 2%Z) ->
       T.calculate_scen2_t_arr t_e t_cr gamma <> None)
    /\ (DMSI.identify_scenario gamma t_cr t_e t_l = ("Scenario 4", 4%Z) ->
       T.calculate_scen4_t_arr t_l t_cr gamma <> None).
Proof.
  intros gamma t_cr t_e t_l. unfold DMSI.identify_scenario.
  pose proof (scenario2_loop_spec gamma t_cr t_e) as H2.
  pose proof (overlap_loop_spec gamma t_cr t_l) as H3.
  pose proof (scen2_intersections_empty gamma t_e t_cr) as E2.
  pose proof (scen4_intersections_empty gamma t_l t_cr) as E4.
  unfold T.calculate_scen2_t_arr, T.calculate_scen4_t_arr.
  destruct (DMSI.scenario1_loop gamma t_cr); [split; discriminate |].
  destruct (DMSI.scenario2_loop gamma t_e t_cr).
  - split; [| discriminate]. intros _ Hnone.
    destruct (T.scen2_intersections t_e t_cr gamma); [| discriminate].
    apply (proj1 E2); [reflexivity | apply H2; reflexivity].
  - destruct (DMSI.overlap_loop gamma t_cr t_l); simpl; (split; [discriminate |]);
      [| discriminate].
    intros _ Hnone.
    destruct (T.scen4_intersections t_l t_cr gamma); [| discriminate].
    apply (proj1 E4); [reflexivity | apply H3; reflexivity].
Qed.

Lemma classified_scenario_has_arrival_time_witness :
  T.calculate_scen2_t_arr (py 9) (py 12) [(py 5, py 11)] <> None.
Proof.
  apply (proj1 (classified_scenario_has_arrival_time
                  [(py 5, py 11)] (py 12) (py 9) (py 23))).
  vm_compute. reflexivity.
Defined.

(** ** Looking up a cached profile *)

Lemma div_mph (v : num) : div v (py 1.609) = Val (mph v).
Proof. destruct v as [x []]; reflexivity. Qed.

(** [xs[-1]] is the last element. *)
Lemma index_last {A : Type} (front : list A) (x : A) :
  index (front ++ [x]) (-1) = Val x.
Proof.
  unfold index. rewrite length_app. simpl List.length.
  change (-1 <? 0)%Z with true. cbv iota.
  replace (-1 + Z.of_nat (List.length front + 1))%Z
    with (Z.of_nat (List.length front)) by lia.
  destruct (Z.ltb_spec (Z.of_nat (List.length front)) 0) as [Hneg | _]; [lia |].
  rewrite Nat2Z.id, nth_error_app2, Nat.sub_diag by lia. reflexivity.
Qed.

Lemma index_empty_negative {A : Type} (k : Z) :
  (k < 0)%Z -> index (@nil A) k = Exc IndexError.
Proof.
  intros Hk. unfold index. simpl List.length.
  destruct (Z.ltb_spec k 0) as [_ | H]; [| lia].
  rewrite Z.add_0_r. destruct (Z.ltb_spec k 0) as [_ | H]; [reflexivity | lia].
Qed.

Section Lookup.

Context {L : T.NumericLib}.

Variables (profile : T.Profile) (start end_ dt : num) (last : option string).
Variables (label : string) (d v : num) (t0 : float) (gec gs gen : num).

Let s : T.Self := ready profile start end_ dt last.
Let i : T.Inputs := plan_call label d v t0 gec gs gen.

Lemma lookup_at_or_before_start (t v0 : num) (rest : T.Profile) :
  le (py t0) start = true -> profile = (t, v0) :: rest ->
  T.cycle i s = looked_up s v0.
Proof.
  intros Hle Hp. subst s i. unfold looked_up, ready. planner_unfold. simpl.
  rewrite Hle, Hp. simpl. rewrite div_mph. reflexivity.
Qed.

Lemma lookup_at_or_after_end (front : T.Profile) (t v0 : num) :
  le (py t0) start = false -> ge (py t0) end_ = true ->
  profile = front ++ [(t, v0)] ->
  T.cycle i s = looked_up s v0.
Proof.
  intros Hle Hge Hp. subst s i. unfold looked_up, ready. planner_unfold. simpl.
  rewrite Hle, Hge, Hp. simpl. rewrite index_last. simpl.
  rewrite div_mph. reflexivity.
Qed.

Lemma lookup_inside (x : num) (k : Z) (t v0 : num) :
  le (py t0) start = false -> ge (py t0) end_ = false ->
  div (sub (py t0) start) dt = Val x -> int (val x) = Val k ->
  index profile (Z.min k (Z.of_nat (List.length profile) - 1)) = Val (t, v0) ->
  T.cycle i s = looked_up s v0.
Proof.
  intros Hle Hge Hx Hk Hidx. subst s i. unfold looked_up, ready.
  planner_unfold. simpl.
  rewrite Hle, Hge, Hx. simpl. rewrite Hk. simpl. rewrite Hidx. simpl.
  rewrite div_mph. reflexivity.
Qed.

Lemma lookup_in_empty_profile :
  profile = [] ->
  exists e, T.cycle i s
            = (Raised e, {| T.self := s; T.outputs := []; T.files := [] |}).
Proof.
  intros Hp. subst s i. unfold ready. planner_unfold. simpl. rewrite Hp.
  destruct (le (py t0) start); simpl; [eexists; reflexivity |].
  destruct (ge (py t0) end_); simpl; [eexists; reflexivity |].
  destruct (div (sub (py t0) start) dt) as [x|e]; simpl; [| eexists; reflexivity].
  destruct (int (val x)) as [k|e]; simpl; [| eexists; reflexivity].
  rewrite index_empty_negative by lia. eexists; reflexivity.
Qed.

End Lookup.

(** X6. With a profile cached from [start] to [end], a cycle with every
    validated input present writes, in km/h and divided by 1.609 in mph,
    the speed of the first sample when the time is at or before [start],
    of the last sample when it is after [start] and at or after [end], and
    otherwise of the sample at index [min(int((t - start) / dt), n - 1)];
    it changes nothing in the object.  When the cached profile is empty,
    every such cycle raises and writes nothing. *)
Theorem lookup_serves_cached_samples :
  forall (L : T.NumericLib) (profile : T.Profile) (start end_ dt : num)
         (last : option string) (label : string) (d v : num) (t0 : float)
         (gec gs gen : num),
    let s := ready profile start end_ dt last in
    let i := plan_call label d v t0 gec gs gen in
    (forall t v0 rest,
        le (py t0) start = true -> profile = (t, v0) :: rest ->
        T.cycle i s = looked_up s v0)
    /\ (forall front t v0,
        le (py t0) start = false -> ge (py t0) end_ = true ->
        profile = front ++ [(t, v0)] ->
        T.cycle i s = looked_up s v0)
    /\ (forall x k t v0,
        le (py t0) start = false -> ge (py t0) end_ = false ->
        div (sub (py t0) start) dt = Val x -> int (val x) = Val k ->
        index profile (Z.min k (Z.of_nat (List.length profile) - 1)) = Val (t, v0) ->
        T.cycle i s = looked_up s v0)
    /\ (profile = [] ->
        exists e, T.cycle i s
                  = (Raised e, {| T.self := s; T.outputs := []; T.files := [] |})).
Proof.
  intros L profile start end_ dt last label d v t0 gec gs gen s i.
  split; [| split; [| split]].
  - intros t v0 rest. apply lookup_at_or_before_start.
  - intros front t v0. apply lookup_at_or_after_end.
  - intros x k t v0. apply lookup_inside.
  - apply lookup_in_empty_profile.
Qed.

Lemma lookup_serves_cached_samples_witness :
  @T.cycle example_lib (far_window "Scenario 4")
     (ready [(py 5, py 30); (py 5.1, py 31)] (py 5) (py 40) (py 0.1) None)
  = looked_up (ready [(py 5, py 30); (py 5.1, py 31)] (py 5) (py 40) (py 0.1) None)
      (py 30).
Proof.
  refine (proj1 (lookup_serves_cached_samples example_lib
                   [(py 5, py 30); (py 5.1, py 31)] (py 5) (py 40) (py 0.1) None
                   "Scenario 4" (py 100) (py 30) 5 (py (-1)) (py 1000) (py 1050))
            (py 5) (py 30) [(py 5.1, py 31)] _ _); reflexivity.
Defined.

(** ** Computing a profile *)

Lemma ltb_false_of_leb_false (x y : float) :
  (x <=? y)%float = false -> (x <? y)%float = false.
Proof.
  intros H. destruct (x <? y)%float eqn:Hlt; [| reflexivity].
  rewrite (ltb_leb _ _ Hlt) in H. discriminate.
Qed.

Lemma clamped_within_limit (v : num) : gt (clamped v) T.v_limit = false.
Proof.
  unfold clamped, ge, gt. destruct (val T.v_limit <=? val v)%float eqn:H.
  - apply ltb_irrefl.
  - apply ltb_false_of_leb_false, H.
Qed.

Lemma for_each_Forall {A B : Type} (P : B -> Prop) (body : A -> E B) :
  (forall a b, body a = Val b -> P b) ->
  forall (xs : list A) (ys : list B),
    T.for_each xs body = Val ys -> Forall P ys.
Proof.
  intros Hbody. induction xs as [|x xs IH]; intros ys; simpl.
  - intros H. injection H as <-. constructor.
  - destruct (body x) as [y|e] eqn:Hy; simpl; [| discriminate].
    destruct (T.for_each xs body) as [ys'|e]; simpl; [| discriminate].
    intros H. injection H as <-. constructor; [exact (Hbody x y Hy) | apply IH; reflexivity].
Qed.

Lemma for_each_scenario1 (v_c_ms : num) (ts : list num) :
  T.for_each ts (T.scenario1_sample v_c_ms)
  = Val (map (fun t => (t, clamped (mul v_c_ms (py 3.6)))) ts).
Proof.
  induction ts as [|t ts IH]; simpl; [reflexivity |].
  rewrite IH. reflexivity.
Qed.

Section Scenario3.

Context {L : T.NumericLib}.

Lemma scenario1_sample_within (v_c_ms t : num) (r : num * num) :
  T.scenario1_sample v_c_ms t = Val r -> gt (snd r) T.v_limit = false.
Proof.
  unfold T.scenario1_sample. intros H. injection H as <-.
  apply (clamped_within_limit (mul v_c_ms (py 3.6))).
Qed.

Lemma scenario3_sample_within (t_0 v_c_ms t_arr g_s_next t_5 m t : num) (r : num * num) :
  T.scenario3_sample t_0 v_c_ms t_arr g_s_next t_5 m t = Val r ->
  gt (snd r) T.v_limit = false.
Proof.
  unfold T.scenario3_sample, ebind.
  destruct (T.g (sub t t_0) v_c_ms t_arr g_s_next t_5 m) as [v|e]; [| discriminate].
  intros H. injection H as <-. apply (clamped_within_limit (mul v (py 3.6))).
Qed.


End Scenario3.



(** One case analysis on the next expression a statement evaluates. *)
Ltac expr_step H :=
  match type of H with
  | context [match ?x with Val _ => _ | Exc _ => _ end] =>
      destruct x eqn:?; simpl in H; try discriminate H
  | context [if le ?a ?b then _ else _] =>
      destruct (le a b) eqn:?; simpl in H; try discriminate H
  end.

Section LimitedProfiles.

Context {L : T.NumericLib}.

Lemma scenario1_profile_within
    (t_0 d_0 : num) (v_c : option num) (gec gs gen : num) (w w' : T.World)
    (profile : T.Profile) (st en : num) :
  T.compute_velocity_profile t_0 d_0 v_c gec gs gen "Scenario 1" w
  = (Returned (Some (profile, st, en)), w') ->
  within_limit profile /\ st = t_0.
Proof.
  unfold T.compute_velocity_profile, T.save_profile_to_file, T.self_dt, T.get_self,
    bind, lift, get, ret, modify, return_.
  simpl. intros H. repeat expr_step H.
  injection H as <- <- _ _. split; [| reflexivity].
  eapply for_each_Forall; [| eassumption].
  intros ? ?. apply scenario1_sample_within.
Qed.

Lemma scenario3_profile_within
    (t_0 d_0 : num) (v_c : option num) (gec gs gen : num) (w w' : T.World)
    (profile : T.Profile) (st en : num) :
  T.compute_velocity_profile t_0 d_0 v_c gec gs gen "Scenario 3" w
  = (Returned (Some (profile, st, en)), w') ->
  within_limit profile /\ st = t_0.
Proof.
  unfold T.compute_velocity_profile, T.save_profile_to_file, T.self_dt, T.get_self,
    bind, lift, get, ret, modify, return_.
  simpl. intros H. repeat expr_step H.
  injection H as <- <- _ _. split; [| reflexivity].
  eapply for_each_Forall; [| eassumption].
  intros ? ?. apply scenario3_sample_within.
Qed.

End LimitedProfiles.

(** X8. Whenever [compute_velocity_profile] returns a profile for
    Scenario 1 or Scenario 3, no sample of it is above the speed limit of
    56.33 km/h, and the returned start time is the current time. *)
Theorem scenario_1_and_3_profiles_within_limit :
  forall (L : T.NumericLib) (label : string)
         (t_0 d_0 : num) (v_c : option num) (gec gs gen : num) (w w' : T.World)
         (profile : T.Profile) (st en : num),
    label = "Scenario 1" \/ label = "Scenario 3" ->
    T.compute_velocity_profile t_0 d_0 v_c gec gs gen label w
    = (Returned (Some (profile, st, en)), w') ->
    within_limit profile /\ st = t_0.
Proof.
  intros L label t_0 d_0 v_c gec gs gen w w' profile st en [-> | ->].
  - apply scenario1_profile_within.
  - apply scenario3_profile_within.
Qed.

Lemma scenario_1_and_3_profiles_within_limit_witness :
  List.length (returned_profile over_limit_call) = 301%nat
  /\ within_limit (returned_profile over_limit_call).
Proof.
  split; [vm_compute; reflexivity |].
  unfold returned_profile, over_limit_call.
  destruct (@T.compute_velocity_profile example_lib (py 5) (py 100) (Some (py 60))
              (py (-1)) (py 1000) (py 1050) "Scenario 1"
              {| T.self := T.Birth; T.outputs := []; T.files := [] |})
    as [[|[[[p st] en]|]|] w'] eqn:H; simpl; try constructor.
  eapply (scenario_1_and_3_profiles_within_limit example_lib "Scenario 1");
    [left; reflexivity | exact H].
Defined.

Section Scenario1.

Context {L : T.NumericLib}.

Variables (s : T.Self) (d v gec gs gen : num) (t0 : float).
Variables (th : Thresholds) (ts : list float) (z : Z).

Hypothesis Hempty : T.precomputed_velocity_profile s = None.
Hypothesis Hth : T.rate_thresholds d v = Val th.
Hypothesis Hgrid :
  T.np_arange t0 (val (add (add (py t0) (py 30)) (T.dt s))) (val (T.dt s)) = Val ts.
Hypothesis Hround : round (val gen) = Val z.

Let speed : num := clamped (mul (v_c_ms th) (py 3.6)).
Let profile : T.Profile := map (fun t => (Num t NpFloat64, speed)) ts.
Let i : T.Inputs := plan_call "Scenario 1" d v t0 gec gs gen.

Lemma compute_scenario1 (w : T.World) :
  T.self w = s ->
  exists w',
    T.compute_velocity_profile (py t0) d (Some v) gec gs gen "Scenario 1" w
    = (Returned (Some (profile, py t0, add (py t0) (add (py t0) (py 30)))), w')
    /\ T.self w' = s /\ T.outputs w' = T.outputs w.
Proof.
  intros Hw.
  unfold T.compute_velocity_profile, T.save_profile_to_file, T.self_dt, T.get_self,
    T.arange, bind, lift, get, ret, modify, return_.
  simpl. rewrite Hth. simpl. rewrite Hw.
  pose proof Hgrid as Hg. simpl in Hg. rewrite Hg. simpl.
  rewrite for_each_scenario1. simpl. rewrite Hround. simpl.
  eexists. split.
  - subst profile speed. rewrite map_map. reflexivity.
  - split; [exact Hw | reflexivity].
Qed.

Lemma scenario1_cycle_caches :
  T.after i s
  = ready profile (py t0) (add (py t0) (add (py t0) (py 30))) (T.dt s) (T.last_scenario s).
Proof.
  subst i. unfold ready. planner_unfold. simpl. rewrite Hempty.
  destruct (compute_scenario1 {| T.self := s; T.outputs := []; T.files := [] |} eq_refl)
    as (w' & -> & Hself & Hout).
  simpl. rewrite Hself.
  repeat lookup_step; reflexivity.
Qed.

Lemma scenario1_cycle_writes (t : float) (rest : list float) :
  ts = t :: rest -> (t0 <=? t0)%float = true ->
  T.outputs (snd (T.cycle i s)) = [T.v_t_kmh speed; T.v_t_mph (mph speed)].
Proof.
  intros Hts Hle. subst i. planner_unfold. simpl. rewrite Hempty.
  destruct (compute_scenario1 {| T.self := s; T.outputs := []; T.files := [] |} eq_refl)
    as (w' & -> & Hself & Hout).
  simpl. unfold le. simpl. rewrite Hle. simpl.
  subst profile. rewrite Hts. simpl. rewrite div_mph. simpl.
  rewrite Hout. reflexivity.
Qed.

End Scenario1.

(** X9. A Scenario 1 cycle with no cached profile, whose thresholds,
    sample grid [np.arange(t_0, t_0 + 30 + dt, dt)] and
    [save_profile_to_file] succeed, caches one sample per grid time, all
    with the same speed (the current speed in km/h, replaced by the limit
    when at or above it), the start [t_0] and the end [t_0 + (t_0 + 30)];
    when the grid is not empty it writes that speed.  An empty grid is
    cached as an empty profile all the same. *)
Theorem scenario1_caches_constant_profile :
  forall (L : T.NumericLib) (s : T.Self) (d v gec gs gen : num) (t0 : float)
         (th : Thresholds) (ts : list float) (z : Z),
    T.precomputed_velocity_profile s = None ->
    T.rate_thresholds d v = Val th ->
    T.np_arange t0 (val (add (add (py t0) (py 30)) (T.dt s))) (val (T.dt s)) = Val ts ->
    round (val gen) = Val z ->
    let speed := clamped (mul (v_c_ms th) (py 3.6)) in
    let i := plan_call "Scenario 1" d v t0 gec gs gen in
    T.after i s
    = ready (map (fun t => (Num t NpFloat64, speed)) ts)
            (py t0) (add (py t0) (add (py t0) (py 30))) (T.dt s) (T.last_scenario s)
    /\ (ts <> [] -> (t0 <=? t0)%float = true ->
        T.outputs (snd (T.cycle i s)) = [T.v_t_kmh speed; T.v_t_mph (mph speed)]).
Proof.
  intros L s d v gec gs gen t0 th ts z Hs Hth Hgrid Hround speed i. split.
  - apply (scenario1_cycle_caches s d v gec gs gen t0 th ts z Hs Hth Hgrid Hround).
  - intros Hne Hle. destruct ts as [|t rest]; [contradiction |].
    apply (scenario1_cycle_writes s d v gec gs gen t0 th (t :: rest) z
             Hs Hth Hgrid Hround t rest eq_refl Hle).
Qed.

Lemma scenario1_caches_constant_profile_witness :
  T.outputs (snd (@T.cycle example_lib (far_window "Scenario 1") T.Birth))
  = [T.v_t_kmh (py 30.000000000000004); T.v_t_mph (mph (py 30.000000000000004))].
Proof.
  assert (Hth : exists th, T.rate_thresholds (py 100) (py 30) = Val th
                           /\ clamped (mul (v_c_ms th) (py 3.6)) = py 30.000000000000004)
    by (eexists; split; vm_compute; reflexivity).
  destruct Hth as (th & Hth & Hspeed).
  destruct (@T.np_arange example_lib 5
              (val (add (add (py 5) (py 30)) (T.dt T.Birth))) (val (T.dt T.Birth)))
    as [ts|e] eqn:Hgrid; [| vm_compute in Hgrid; discriminate].
  assert (Hne : ts <> []) by (intros ->; vm_compute in Hgrid; discriminate).
  rewrite <- Hspeed.
  apply (proj2 (scenario1_caches_constant_profile example_lib T.Birth
                  (py 100) (py 30) (py (-1)) (py 1000) (py 1050) 5 th ts 1050%Z
                  eq_refl Hth Hgrid eq_refl) Hne eq_refl).
Defined.

(** ** Guards against a zero divisor *)

Lemma above_eps_nonzero (x eps : float) :
  (0 <? eps)%float = true ->
  (eps <? PrimFloat.abs x)%float = true -> (x =? 0)%float = false.
Proof.
  rewrite !FloatAxioms.ltb_spec, FloatAxioms.eqb_spec, FloatAxioms.abs_spec.
  change (Prim2SF 0) with (S754_zero false).
  destruct (Prim2SF x) as [s| s| |s m e], (Prim2SF eps) as [s'| s'| |s' m' e'];
    try destruct s; try destruct s'; cbn; try discriminate; try reflexivity.
Qed.

Lemma not_below_eps_nonzero (x eps : float) :
  (0 <? eps)%float = true ->
  (PrimFloat.abs x <? eps)%float = false -> (x =? 0)%float = false.
Proof.
  rewrite !FloatAxioms.ltb_spec, FloatAxioms.eqb_spec, FloatAxioms.abs_spec.
  change (Prim2SF 0) with (S754_zero false).
  destruct (Prim2SF x) as [s| s| |s m e], (Prim2SF eps) as [s'| s'| |s' m' e'];
    try destruct s; try destruct s'; cbn; try discriminate; try reflexivity.
Qed.

Lemma div_guarded (a b : num) :
  (val b =? 0)%float = false ->
  div a b = Val (Num (val a / val b) (join (knd a) (knd b))).
Proof.
  intros H. unfold div. destruct (join (knd a) (knd b)); [rewrite H |]; reflexivity.
Qed.

(** ** Shaping rates *)

Lemma half_pi : div np_pi (py 2) = Val (py 0x1.921fb54442d18p+0).
Proof. reflexivity. Qed.

Section RateN.

Context {L : T.NumericLib}.

Lemma rate_n_no_candidates (a_max d_max jerk_max v_d v_h d_0 : num) :
  gt (abs v_d) (py 1e-6) = false ->
  T.calculate_n_scen2and4 a_max d_max jerk_max v_d v_h d_0 = Exc ValueError.
Proof.
  intros H.
  unfold T.calculate_n_scen2and4. rewrite H. cbn [ebind].
  destruct (gt (abs v_h) (py 1e-6) && gt (abs d_0) (py 1e-6)) eqn:Hg; [| reflexivity].
  apply andb_prop in Hg. destruct Hg as [_ Hd].
  rewrite half_pi. cbn [ebind].
  rewrite (div_guarded v_h d_0); [reflexivity |].
  apply (above_eps_nonzero _ 1e-6); [reflexivity | exact Hd].
Qed.

End RateN.

(** X10. When the target average speed is within 1e-6 m/s of the current
    speed (or their difference is not a number), [calculate_n_scen2and4]
    has no candidate rate and [min] of the empty list raises [ValueError];
    the lower bound computed before it never raises. *)
Theorem rate_n_without_candidates_raises :
  forall (L : T.NumericLib) (a_max d_max jerk_max v_d v_h d_0 : num),
    gt (abs v_d) (py 1e-6) = false ->
    T.calculate_n_scen2and4 a_max d_max jerk_max v_d v_h d_0 = Exc ValueError.
Proof.
  intros L a_max d_max jerk_max v_d v_h d_0 H.
  apply rate_n_no_candidates, H.
Qed.

Lemma rate_n_without_candidates_raises_witness :
  @T.calculate_n_scen2and4 example_lib (py 1) (py 1) (py 1) (py 0) (py 10) (py 100)
  = Exc ValueError.
Proof.
  apply (rate_n_without_candidates_raises example_lib). reflexivity.
Defined.

(** X11. Once [d_0 / v_h] and the two squares are computed,
    [calculate_m_scen2and4] returns: 1e6 when the denominator is below
    1e-6 in absolute value, and otherwise the quotient of the numerator by
    the denominator, a division that never raises because a denominator
    that passed the test is not zero. *)
Theorem rate_m_final_division_guarded :
  forall (L : T.NumericLib) (n d_0 v_h a sq1 sq2 : num),
    div d_0 v_h = Val a ->
    T.pow (mul (py 0x1.921fb54442d18p+0) n) 2 = Val sq1 ->
    T.pow n 2 = Val sq2 ->
    let pi_over_2 := py 0x1.921fb54442d18p+0 in
    let inside_sqrt :=
      sub sq1 (mul (mul (py 4) sq2) (sub (sub pi_over_2 (py 1)) (mul a n))) in
    let sqrt_term := if lt inside_sqrt (py 0) then py 0.0 else np_sqrt inside_sqrt in
    let numerator := sub (mul (neg pi_over_2) n) sqrt_term in
    let denominator := mul (py 2) (sub (sub pi_over_2 (py 1)) (mul a n)) in
    T.calculate_m_scen2and4 n d_0 v_h
    = Val (if lt (abs denominator) (py 1e-6) then py 1e6
           else Num (val numerator / val denominator)
                    (join (knd numerator) (knd denominator))).
Proof.
  intros L n d_0 v_h a sq1 sq2 Ha H1 H2
         pi_over_2 inside_sqrt sqrt_term numerator denominator.
  unfold T.calculate_m_scen2and4. rewrite half_pi. cbn [ebind]. cbv zeta.
  rewrite H1. cbn [ebind]. rewrite H2. cbn [ebind].
  rewrite Ha. cbn [ebind].
  fold pi_over_2. fold inside_sqrt. fold sqrt_term. fold numerator. fold denominator.
  destruct (lt (abs denominator) (py 1e-6)) eqn:Hd; [reflexivity |].
  apply div_guarded.
  apply (not_below_eps_nonzero _ 1e-6); [reflexivity | exact Hd].
Qed.

Lemma rate_m_final_division_guarded_witness :
  exists m, @T.calculate_m_scen2and4 squaring_lib (py 1) (py 100) (py 10) = Val m.
Proof.
  eexists.
  apply (rate_m_final_division_guarded squaring_lib (py 1) (py 100) (py 10) (py 10));
    reflexivity.
Defined.

(** X12. The speed functions [f] of Scenario 2 and [h] of Scenario 4 are
    the same function, so a sample of a Scenario 4 profile is computed as a
    sample of a Scenario 2 profile from the same parameters. *)
Theorem scenarios_2_and_4_share_speed_function :
  forall (L : T.NumericLib) (t v_c v_h v_d m n t_1 d_0 t_2 t_3 t_0 : num),
    T.f t v_c v_h v_d m n t_1 d_0 t_2 t_3 = T.h t v_c v_h v_d m n t_1 d_0 t_2 t_3
    /\ T.scenario24_sample "Scenario 2" t_0 v_c v_h v_d m n t_1 d_0 t_2 t_3 t
       = T.scenario24_sample "Scenario 4" t_0 v_c v_h v_d m n t_1 d_0 t_2 t_3 t.
Proof.
  intros. split; reflexivity.
Qed.

(** ** What a cycle of the generator can change *)

Lemma frames_ret {R A : Type} (a : A) : frames (ret a : M T.World R A).
Proof. intros w. split; reflexivity. Qed.

Lemma frames_return {R A : Type} (r : R) : frames (return_ r : M T.World R A).
Proof. intros w. split; reflexivity. Qed.

Lemma frames_raise {R A : Type} (e : exn) : frames (raise e : M T.World R A).
Proof. intros w. split; reflexivity. Qed.

Lemma frames_lift {R A : Type} (x : E A) : frames (lift x : M T.World R A).
Proof. intros w. split; reflexivity. Qed.

Lemma frames_bind {R A B : Type} (m : M T.World R A) (k : A -> M T.World R B) :
  frames m -> (forall a, frames (k a)) -> frames (bind m k).
Proof.
  intros Hm Hk w. unfold bind. specialize (Hm w).
  destruct (m w) as [[a|r|e] w']; simpl in *; [| exact Hm | exact Hm].
  destruct (Hk a w') as [H1 H2]. destruct Hm as [H3 H4]. split; congruence.
Qed.

Lemma frames_self_dt {R : Type} : frames (T.self_dt : M T.World R num).
Proof. intros w. split; reflexivity. Qed.

Lemma frames_save {R : Type} (profile : T.Profile) (label : string)
    (t_start gec gs gen v : num) :
  frames (T.save_profile_to_file profile label t_start gec gs gen v : M T.World R unit).
Proof.
  intros w. unfold T.save_profile_to_file, bind, lift, modify.
  destruct (round (val gen)); split; reflexivity.
Qed.

Ltac frames_step :=
  first
    [ apply frames_ret | apply frames_return | apply frames_raise
    | apply frames_lift | apply frames_self_dt | apply frames_save
    | apply frames_bind; [| intros ?]
    | match goal with
      | |- frames (if ?b then _ else _) => destruct b
      | |- frames (match ?x with _ => _ end) => destruct x
      end ].

Section CycleShape.

Context {L : T.NumericLib}.

(** [compute_velocity_profile] touches nothing but the file system. *)
Lemma compute_frames (t_0 d_0 : num) (v_c : option num) (gec gs gen : num)
    (label : string) :
  frames (T.compute_velocity_profile t_0 d_0 v_c gec gs gen label).
Proof.
  unfold T.compute_velocity_profile. repeat frames_step.
Qed.

Lemma cycle_shape (i : T.Inputs) (s : T.Self) :
  let r := T.cycle i s in
  T.dt (T.self (snd r)) = T.dt s
  /\ T.last_scenario (T.self (snd r)) = T.last_scenario s
  /\ (cache_consistent s -> cache_consistent (T.self (snd r)))
  /\ cycle_ends_well i s r.
Proof.
  unfold cycle_ends_well, cache_consistent, missing_input.
  destruct s as [pp st en dt0 ls]. destruct i as [sc d v t0 gec gs gen].
  planner_unfold. simpl.
  destruct sc as [label|]; [| simpl; tauto].
  destruct d as [d|]; [| simpl; tauto].
  destruct gec as [gec|]; [| simpl; tauto].
  destruct gs as [gs|]; [| simpl; tauto].
  destruct gen as [gen|]; [| simpl; tauto].
  destruct pp as [profile|]; simpl.
  - repeat (first [rewrite div_mph; simpl | lookup_step]);
      repeat split; eauto; tauto.
  - match goal with
    | |- context [T.compute_velocity_profile ?a ?b ?c ?d ?e ?f ?g ?w] =>
        destruct (compute_frames a b c d e f g w) as [Hs Ho];
        destruct (T.compute_velocity_profile a b c d e f g w) as [[a0|r0|e0] [s' o' f']]
    end; simpl in Hs, Ho; subst s' o'; simpl.
    + repeat split; tauto.
    + destruct r0 as [[[profile start] end_]|]; simpl; [| repeat split; tauto].
      repeat (first [rewrite div_mph; simpl | lookup_step]);
        repeat split; eauto; tauto.
    + repeat split; tauto.
Qed.

Lemma run_as_born (ins : list T.Inputs) :
  forall s, as_born s -> as_born (T.run ins s).
Proof.
  induction ins as [|i rest IH]; intros s Hs; simpl; [exact Hs |].
  apply IH. destruct Hs as (Hdt & Hlast & Hc).
  destruct (cycle_shape i s) as (H1 & H2 & H3 & _).
  unfold as_born, T.after. rewrite H1, H2. auto.
Qed.

End CycleShape.

(** X13. No cycle of the generator changes the time step or the recorded
    scenario of its object: the two assignments that would reset the cache
    on a scenario change stand after a [return].  After any sequence of
    cycles from [Birth] the step is 0.1, the recorded scenario is [None],
    and the cached profile, its start and its end are all three set or all
    three [None]. *)
Theorem generator_object_invariant :
  forall (L : T.NumericLib),
    (forall (i : T.Inputs) (s : T.Self),
        T.dt (T.after i s) = T.dt s
        /\ T.last_scenario (T.after i s) = T.last_scenario s)
    /\ (forall ins : list T.Inputs, as_born (T.run ins T.Birth)).
Proof.
  intros L. split.
  - intros i s. destruct (cycle_shape i s) as (H1 & H2 & _). split; assumption.
  - intros ins. apply run_as_born. repeat split.
Qed.

(** X14. Every cycle of the generator ends in one of three ways: normally,
    having written exactly one speed to [v_t_kmh] and that speed divided
    by 1.609 to [v_t_mph]; by the [return] of the missing-input branch,
    with nothing written and the object unchanged; or by an exception,
    with nothing written. *)
Theorem cycle_writes_speed_pair_or_nothing :
  forall (L : T.NumericLib) (i : T.Inputs) (s : T.Self),
    cycle_ends_well i s (T.cycle i s).
Proof.
  intros L i s. apply (cycle_shape i s).
Qed.

(** X15. [Core] does not validate [v_c]: a cycle whose validated inputs
    are all present but whose speed reads as [None] raises [TypeError] in
    [compute_velocity_profile] when no profile is cached, writing nothing
    and leaving the object unchanged. *)
Theorem missing_speed_raises_TypeError :
  forall (L : T.NumericLib) (i : T.Inputs) (s : T.Self),
    ~ missing_input i -> T.v_c i = None ->
    T.precomputed_velocity_profile s = None ->
    T.cycle i s = (Raised TypeError, {| T.self := s; T.outputs := []; T.files := [] |}).
Proof.
  intros L [sc d v t0 gec gs gen] s Hm Hv Hs. unfold missing_input in Hm.
  simpl in *. subst v.
  destruct sc as [label|]; [| tauto].
  destruct d as [d|]; [| tauto].
  destruct gec as [gec|]; [| tauto].
  destruct gs as [gs|]; [| tauto].
  destruct gen as [gen|]; [| tauto].
  planner_unfold. simpl. rewrite Hs. reflexivity.
Qed.

Lemma missing_speed_raises_TypeError_witness :
  @T.cycle example_lib
     {| T.scenario := Some "Scenario 1"; T.d_0 := Some (py 100); T.v_c := None;
        T.t_0 := 5; T.g_e_curr := Some (py (-1)); T.g_s_next := Some (py 1000);
        T.g_e_next := Some (py 1050) |} T.Birth
  = (Raised TypeError, {| T.self := T.Birth; T.outputs := []; T.files := [] |}).
Proof.
  apply (missing_speed_raises_TypeError example_lib); [| reflexivity | reflexivity].
  unfold missing_input. simpl. intros [H | [H | [H | [H | H]]]]; discriminate.
Defined.

(** ** The tracker's object over a run *)

Lemma skipped_cycle (s : G.Self) (i : G.Inputs) :
  ~ same_intersection i -> G.cycle i s = (Returned tt, s, []).
Proof.
  intros H. unfold same_intersection in H. unfold G.cycle, G.Core.
  destruct (G.Intersection_ID_matched i) as [a|]; [| reflexivity].
  destruct (G.IntersectionID_SPaT i) as [b|]; [| reflexivity].
  destruct (a =? b)%float eqn:Hab; [| reflexivity].
  exfalso. apply H. exists a, b. auto.
Qed.

Lemma unreadable_countdown_cycle (s : G.Self) (i : G.Inputs) (e : exn) :
  same_intersection i -> int (G.countdown i) = Exc e ->
  G.cycle i s = (Raised e, s, []).
Proof.
  intros (a & b & Ha & Hb & Hab) Hc. unfold G.cycle, G.Core, bind, lift, ret.
  rewrite Ha, Hb, Hab. simpl. rewrite Hc. reflexivity.
Qed.

Lemma estimate_whole (t0 code : float) (c : Z) (d : float) :
  let e := G.estimate_green_window_from_countdown t0 code c d in
  whole (snd e, fst (fst e), snd (fst e)).
Proof.
  unfold G.estimate_green_window_from_countdown, whole.
  repeat match goal with
         | |- context [if ?b then _ else _] => destruct b
         end; simpl; eauto.
Qed.

Lemma record_interval_nonempty (xs : list float) (x : float) :
  G.record_interval xs x <> [].
Proof.
  unfold G.record_interval.
  destruct (Nat.ltb_spec 20 (List.length (xs ++ [x]))) as [Hlt | _].
  - destruct (xs ++ [x]) as [|a [|b l]]; simpl in *; [lia | lia | discriminate].
  - destruct xs; discriminate.
Qed.

Lemma next_history_nonempty (t0 : float) (s : G.Self) :
  settled s -> next_history t0 s <> [].
Proof.
  intros [_ H]. unfold next_history.
  destruct (G.tick s) as [tk|]; [| apply record_interval_nonempty].
  destruct H as (_ & _ & Hh).
  destruct (G.last_tick_time tk); [apply record_interval_nonempty | exact Hh].
Qed.

Lemma emitted_shape (i : G.Inputs) (e : option float * option float * option float) :
  whole e ->
  four_or_nothing i (emitted e (G.state_name_to_number (G.current_state i))).
Proof.
  intros [-> | (a & b & c & ->)]; [left; reflexivity |].
  right. exists a, b, c. reflexivity.
Qed.

Lemma cycle_keeps_settled (s : G.Self) (i : G.Inputs) :
  settled s -> settled (G.after i s) /\ four_or_nothing i (G.written i s).
Proof.
  intros Hs.
  destruct (G.Intersection_ID_matched i) as [a|] eqn:Ha;
    [| unfold G.after, G.written; rewrite skipped_cycle;
       [split; [exact Hs | left; reflexivity]
       | intros (a & b & H & _); congruence]].
  destruct (G.IntersectionID_SPaT i) as [b|] eqn:Hb;
    [| unfold G.after, G.written; rewrite skipped_cycle;
       [split; [exact Hs | left; reflexivity]
       | intros (a' & b & _ & H & _); congruence]].
  destruct (a =? b)%float eqn:Hab;
    [| unfold G.after, G.written; rewrite skipped_cycle;
       [split; [exact Hs | left; reflexivity]
       | intros (a' & b' & H1 & H2 & H3); congruence]].
  assert (Hi : same_intersection i) by (exists a, b; auto).
  destruct (int (G.countdown i)) as [c|e] eqn:Hc;
    [| unfold G.after, G.written; rewrite (unreadable_countdown_cycle s i e Hi Hc);
       split; [exact Hs | left; reflexivity]].
  destruct (G.differs c (last_seen s)) eqn:Hd.
  - destruct (new_countdown_cycle s i c Hi Hc Hd) as [-> ->].
    split; [| apply emitted_shape, estimate_whole].
    split; [apply estimate_whole |]. simpl.
    repeat split; try discriminate. apply next_history_nonempty, Hs.
  - assert (Hl : last_seen s = Some c).
    { unfold G.differs in Hd. destruct (last_seen s) as [c'|]; [| discriminate].
      apply negb_false_iff, Z.eqb_eq in Hd. congruence. }
    destruct (same_countdown_cycle s i c Hc Hl) as [-> Hw].
    split; [exact Hs |]. rewrite (Hw Hi). apply emitted_shape, Hs.
Qed.

Lemma run_keeps_settled (ins : list G.Inputs) :
  forall s, settled s -> settled (G.run ins s).
Proof.
  induction ins as [|i rest IH]; intros s H; simpl; [exact H |].
  apply IH, cycle_keeps_settled, H.
Qed.

(** X16. A cycle of the tracker whose two intersection identifiers are
    not both present and equal returns at once; a cycle for the matched
    intersection whose countdown has no integer value (a NaN or an
    infinity) raises the error of [int].  Either way nothing is written and
    the object is unchanged: not even the tick attributes are created. *)
Theorem unmatched_or_unreadable_cycle_is_inert :
  forall (s : G.Self) (i : G.Inputs),
    (~ same_intersection i -> G.cycle i s = (Returned tt, s, []))
    /\ (forall e, same_intersection i -> int (G.countdown i) = Exc e ->
          G.cycle i s = (Raised e, s, [])).
Proof.
  intros s i. split.
  - apply skipped_cycle.
  - intros e. apply unreadable_countdown_cycle.
Qed.

Lemma unmatched_or_unreadable_cycle_is_inert_witness :
  G.cycle {| G.t0 := 5; G.current_state := "dark"; G.countdown := nan;
             G.Intersection_ID_matched := Some 7%float;
             G.IntersectionID_SPaT := Some 7%float |} tracked_green
  = (Raised ValueError, tracked_green, []).
Proof.
  apply (proj2 (unmatched_or_unreadable_cycle_is_inert tracked_green
                  {| G.t0 := 5; G.current_state := "dark"; G.countdown := nan;
                     G.Intersection_ID_matched := Some 7%float;
                     G.IntersectionID_SPaT := Some 7%float |})).
  - exists 7%float, 7%float. repeat split.
  - reflexivity.
Defined.

(** X17. After any sequence of cycles from [__init__] the cached estimate
    of the tracker is three values or three [None]s, and once the tick
    attributes exist the last countdown and tick time are set and the tick
    history is not empty (so the default tick of 0.1 s for an empty history
    is never taken).  The next cycle writes nothing, or exactly [g_e_curr],
    [g_s_next], [g_e_next] and the phase code, in this order. *)
Theorem tracker_object_stays_settled :
  forall (ins : list G.Inputs) (i : G.Inputs),
    let s := G.run ins G.init in
    settled s /\ four_or_nothing i (G.written i s).
Proof.
  intros ins i s.
  assert (Hs : settled s).
  { apply run_keeps_settled. split; [left |]; reflexivity. }
  split; [exact Hs | apply (cycle_keeps_settled s i Hs)].
Qed.

(** X18. The first processed cycle of a fresh tracker records the
    interval [t0 - t0 = 0]; its mean is below 0.08, so the tick lasts 0.1 s
    and the estimate is computed with a next green of 500 * 0.1 = 50
    seconds, whatever the real tick rate. *)
Theorem first_estimate_assumes_fifty_seconds_of_green :
  forall (i : G.Inputs) (c : Z),
    same_intersection i ->
    int (G.countdown i) = Val c ->
    (G.t0 i - G.t0 i = 0)%float ->
    history (G.after i G.init) = [0%float]
    /\ last_seen (G.after i G.init) = Some c
    /\ let e := G.estimate_green_window_from_countdown
                  (G.t0 i) (G.state_name_to_number (G.current_state i)) c 50 in
       estimate (G.after i G.init) = (snd e, fst (fst e), snd (fst e)).
Proof.
  intros i c Hi Hc Ht.
  destruct (new_countdown_cycle G.init i c Hi Hc eq_refl) as [-> _].
  unfold next_history, history, last_seen, estimate. simpl.
  unfold G.record_interval. simpl. rewrite Ht.
  repeat split.
Qed.

Lemma first_estimate_assumes_fifty_seconds_of_green_witness :
  estimate (G.after red_cycle G.init) = (Some (-1), Some 30, Some 80)%float.
Proof.
  refine (proj2 (proj2 (first_estimate_assumes_fifty_seconds_of_green red_cycle 300 _ _ _)));
    [exists 7%float, 7%float; repeat split | reflexivity | reflexivity].
Defined.

(** ** Phase names *)

Lemma lstrip_blank (a : string) : blank_text a = true -> G.lstrip a = "".
Proof.
  induction a as [|c a IH]; simpl; [reflexivity |].
  intros H. apply andb_prop in H. destruct H as [Hc Ha]. rewrite Hc. exact (IH Ha).
Qed.

Lemma lstrip_app_blank (a s : string) :
  blank_text a = true -> G.lstrip (a ++ s) = G.lstrip s.
Proof.
  induction a as [|c a IH]; simpl; [reflexivity |].
  intros H. apply andb_prop in H. destruct H as [Hc Ha]. rewrite Hc. exact (IH Ha).
Qed.

Lemma rstrip_blank (b : string) : blank_text b = true -> G.rstrip b = "".
Proof.
  induction b as [|c b IH]; simpl; [reflexivity |].
  intros H. apply andb_prop in H. destruct H as [Hc Hb].
  rewrite (IH Hb), Hc. reflexivity.
Qed.

Lemma rstrip_app_blank (s b : string) :
  blank_text b = true -> G.rstrip (s ++ b) = G.rstrip s.
Proof.
  intros Hb. induction s as [|c s IH]; simpl; [apply rstrip_blank, Hb |].
  rewrite IH. reflexivity.
Qed.

Lemma strip_app_blank (s b : string) :
  blank_text b = true -> G.strip (s ++ b) = G.strip s.
Proof.
  intros Hb. unfold G.strip. induction s as [|c s IH]; simpl.
  - rewrite (lstrip_blank b Hb). reflexivity.
  - destruct (G.isspace c); [exact IH |].
    apply (rstrip_app_blank (String c s) b Hb).
Qed.

Lemma strip_padded (a name b : string) :
  blank_text a = true -> blank_text b = true ->
  G.strip (a ++ name ++ b) = G.strip name.
Proof.
  intros Ha Hb. unfold G.strip at 1. rewrite (lstrip_app_blank a _ Ha).
  apply (strip_app_blank name b Hb).
Qed.

Lemma float_neq (x y : float) :
  (x =? x)%float = true -> (x =? y)%float = false -> x <> y.
Proof. intros Hx Hxy ->. congruence. Qed.

Lemma dict_get_default (d : list (string * float)) (key : string) (default : float) :
  (forall k v, In (k, v) d -> v <> default) ->
  (G.dict_get d key default = default <-> forall k v, In (k, v) d -> k <> key).
Proof.
  induction d as [|[k0 v0] d IH]; simpl; intros Hv.
  - split; [intros _ k v [] | reflexivity].
  - destruct (String.eqb_spec k0 key) as [-> | Hne].
    + split.
      * intros H. exfalso. apply (Hv key v0); [left; reflexivity | exact H].
      * intros H. exfalso. apply (H key v0); [left |]; reflexivity.
    + rewrite IH by (intros k v Hin; apply (Hv k v); right; exact Hin).
      split.
      * intros H k v [Heq | Hin]; [injection Heq as <- <-; exact Hne | exact (H k v Hin)].
      * intros H k v Hin. apply (H k v). right. exact Hin.
Qed.

Lemma state_map_codes (k : string) (v : float) :
  In (k, v) G.state_map -> v <> (-1)%float.
Proof.
  unfold G.state_map. simpl.
  intros H.
  repeat (destruct H as [H | H];
          [injection H as <- <-; apply float_neq; reflexivity |]).
  destruct H.
Qed.

(** X19. Whitespace around a phase name does not change its code, and
    the code is -1 exactly when the name, stripped, is none of the ten keys
    of the table (the comparison is case-sensitive). *)
Theorem state_name_lookup_ignores_padding :
  forall (a name b : string),
    blank_text a = true -> blank_text b = true ->
    G.state_name_to_number (a ++ name ++ b) = G.state_name_to_number name
    /\ (G.state_name_to_number name = (-1)%float
        <-> forall key code, In (key, code) G.state_map -> key <> G.strip name).
Proof.
  intros a name b Ha Hb. split.
  - unfold G.state_name_to_number. rewrite (strip_padded a name b Ha Hb). reflexivity.
  - apply (dict_get_default G.state_map (G.strip name) (-1)), state_map_codes.
Qed.

Lemma state_name_lookup_ignores_padding_witness :
  G.state_name_to_number ("  " ++ "dark" ++ String "010" "")
  = G.state_name_to_number "dark".
Proof.
  apply (proj1 (state_name_lookup_ignores_padding "  " "dark" (String "010" "")
                  eq_refl eq_refl)).
Defined.

(** ** The classifier's intervals and the tracker's *)

(** X20. The intervals the classifier rebuilds from the tracker's three
    outputs are those of the tracker's own [gamma_function] in a red or
    yellow phase (where [g_e_curr] is -1) and in a green phase with
    [t0 < g_e_curr].  In a green phase with [t0 >= g_e_curr] the classifier
    has the interval [(t0, g_e_curr)] in addition, and for the codes of
    "unavailable" and "dark" [gamma_function] has no interval while the
    classifier always has one. *)
Theorem classifier_rebuilds_tracker_intervals :
  forall (t0 code gec gs gen : float) (k : kind),
    let rebuilt :=
      floats_of (DMSI.gamma_intervals (py t0) (Num gec k) (Num gs k) (Num gen k)) in
    let tracked := G.gamma_function t0 code gec gs gen in
    (red code \/ yellow code -> (gec =? -1)%float = true -> rebuilt = tracked)
    /\ (green code -> (gec =? -1)%float = false ->
        (t0 <? gec)%float = true -> rebuilt = tracked)
    /\ (green code -> (gec =? -1)%float = false ->
        (t0 <? gec)%float = false -> rebuilt = (t0, gec) :: tracked)
    /\ (code = 0%float \/ code = 1%float -> tracked = [] /\ rebuilt <> []).
Proof.
  intros t0 code gec gs gen k rebuilt tracked.
  subst rebuilt tracked. unfold floats_of, DMSI.gamma_intervals, G.gamma_function, eq.
  simpl val.
  repeat split.
  - intros Hc Hg. rewrite Hg.
    destruct Hc as [[Hc | Hc] | [Hc | [Hc | Hc]]]; rewrite Hc; reflexivity.
  - intros Hc Hg Hlt. rewrite Hg, Hlt.
    destruct Hc as [Hc | [Hc | Hc]]; rewrite Hc; reflexivity.
  - intros Hc Hg Hlt. rewrite Hg, Hlt.
    destruct Hc as [Hc | [Hc | Hc]]; rewrite Hc; reflexivity.
  - destruct H as [Hc | Hc]; rewrite Hc; reflexivity.
  - destruct (gec =? -1)%float; discriminate.
Qed.

Lemma classifier_rebuilds_tracker_intervals_witness :
  floats_of (DMSI.gamma_intervals (py 5) (py (-1)) (py 30) (py 80))
  = G.gamma_function 5 3 (-1) 30 80.
Proof.
  apply (proj1 (classifier_rebuilds_tracker_intervals 5 3 (-1) 30 80 PyFloat)).
  - left. right. reflexivity.
  - reflexivity.
Defined.

(** ** The classifier *)

Lemma bool_ext (a b : bool) : (a = true <-> b = true) -> a = b.
Proof.
  destruct a, b; intros [H1 H2]; try reflexivity.
  - symmetry. apply H1. reflexivity.
  - apply H2. reflexivity.
Qed.

(** X21. [identify_scenario] depends on the set of green intervals only:
    neither their order nor repetitions change the answer. *)
Theorem identify_scenario_depends_on_interval_set :
  forall (g1 g2 : list (num * num)) (t_cr t_e t_l : num),
    (forall x, In x g1 <-> In x g2) ->
    DMSI.identify_scenario g1 t_cr t_e t_l = DMSI.identify_scenario g2 t_cr t_e t_l.
Proof.
  intros g1 g2 t_cr t_e t_l Hset. unfold DMSI.identify_scenario.
  assert (H1 : DMSI.scenario1_loop g1 t_cr = DMSI.scenario1_loop g2 t_cr).
  { apply bool_ext. rewrite !scenario1_loop_spec. unfold cruise_arrival_green.
    split; intros (s & e & Hin & H); exists s, e; (split; [apply Hset, Hin | exact H]). }
  assert (H2 : DMSI.scenario2_loop g1 t_e t_cr = DMSI.scenario2_loop g2 t_e t_cr).
  { apply bool_ext. rewrite !scenario2_loop_spec. unfold early_arrival_green.
    split; intros (s & e & Hin & H); exists s, e; (split; [apply Hset, Hin | exact H]). }
  assert (H3 : DMSI.overlap_loop g1 t_cr t_l = DMSI.overlap_loop g2 t_cr t_l).
  { apply bool_ext. rewrite !overlap_loop_spec. unfold late_arrival_green.
    split; intros (s & e & Hin & H); exists s, e; (split; [apply Hset, Hin | exact H]). }
  rewrite H1, H2, H3. reflexivity.
Qed.

Lemma identify_scenario_depends_on_interval_set_witness :
  DMSI.identify_scenario [(py 5, py 11); (py 30, py 80)] (py 12) (py 9) (py 23)
  = DMSI.identify_scenario [(py 30, py 80); (py 5, py 11); (py 30, py 80)]
      (py 12) (py 9) (py 23).
Proof.
  apply identify_scenario_depends_on_interval_set.
  intros x. simpl. tauto.
Defined.



(** ** The speed feed *)

Lemma feed_run (feeds : list (option num)) :
  forall w : V.World,
    exists v,
      V.run feeds w
      = (Normal tt,
         {| V.self := {| V.v_c := v; V.dt := V.dt (V.self w) |};
            V.outputs := V.outputs w ++ held (V.v_c (V.self w)) feeds |}).
Proof.
  induction feeds as [|feed rest IH]; intros [[v d] out].
  - exists v. simpl. unfold ret. rewrite app_nil_r. reflexivity.
  - cbn [V.run]. unfold bind at 1.
    destruct feed as [x|]; cbn;
      match goal with
      | |- context [V.run rest ?w] => destruct (IH w) as [v' ->]
      end; exists v'; cbn; rewrite <- app_assoc; reflexivity.
Qed.

(** X23. [Vel_Generator] writes, cycle after cycle, the last speed fed
    to it (48.0 from [Birth] on, before any): the change is limited by
    neither [a_max] nor [d_max], the clamped [delta_v] being used by
    nothing.  No cycle raises or changes [dt]. *)
Theorem speed_feed_is_sampled_and_held :
  forall (feeds : list (option num)) (s : V.Self),
    let r := V.run feeds {| V.self := s; V.outputs := [] |} in
    fst r = Normal tt
    /\ V.outputs (snd r) = held (V.v_c s) feeds
    /\ V.dt (V.self (snd r)) = V.dt s.
Proof.
  intros feeds s r. subst r.
  destruct (feed_run feeds {| V.self := s; V.outputs := [] |}) as [v ->].
  repeat split.
Qed.

(** ** Replaying packets *)

Lemma index_nat {A : Type} (xs : list A) (k : nat) (x : A) :
  nth_error xs k = Some x -> index xs (Z.of_nat k) = Val x.
Proof.
  intros H. unfold index.
  destruct (Z.ltb_spec (Z.of_nat k) 0) as [Hneg | _]; [lia |].
  destruct (Z.ltb_spec (Z.of_nat k) 0) as [Hneg | _]; [lia |].
  rewrite Nat2Z.id, H. reflexivity.
Qed.

Lemma firstn_succ {A : Type} (xs : list A) (k : nat) (x : A) :
  nth_error xs k = Some x -> firstn (S k) xs = firstn k xs ++ [x].
Proof.
  revert k. induction xs as [|y xs IH]; intros [|k] H; simpl in *; try discriminate.
  - injection H as <-. reflexivity.
  - rewrite (IH k H). reflexivity.
Qed.

Lemma replay_run (loaded : list P.Packet) (n : nat) :
  forall k : nat,
    (k <= List.length loaded)%nat ->
    P.run n {| P.self := {| P.packets := loaded; P.index := Z.of_nat k |};
               P.outputs := firstn k loaded |}
    = (Normal tt,
       {| P.self := {| P.packets := loaded;
                       P.index := Z.of_nat (Nat.min (k + n) (List.length loaded)) |};
          P.outputs := firstn (k + n) loaded |}).
Proof.
  induction n as [|n IH]; intros k Hk.
  - simpl. unfold ret. rewrite Nat.add_0_r, Nat.min_l by lia. reflexivity.
  - cbn [P.run]. unfold bind at 1. unfold P.Core, P.get_self, bind, get, ret. cbn.
    destruct (Z.ltb_spec (Z.of_nat k) (Z.of_nat (List.length loaded))) as [Hlt | Hge].
    + destruct (nth_error loaded k) as [x|] eqn:Hx;
        [| apply nth_error_None in Hx; lia].
      unfold lift. rewrite (index_nat loaded k x Hx). cbn.
      rewrite <- (firstn_succ loaded k x Hx).
      replace (Z.of_nat k + 1)%Z with (Z.of_nat (S k)) by lia.
      rewrite (IH (S k)) by lia.
      replace (S k + n)%nat with (k + S n)%nat by lia. reflexivity.
    + assert (k = List.length loaded) by lia. subst k.
      specialize (IH (List.length loaded) (Nat.le_refl _)).
      rewrite IH. rewrite !firstn_all2 by lia.
      rewrite !Nat.min_r by lia. reflexivity.
Qed.

(** X24. [n] cycles of the packet replay write the first [n] loaded
    packets, in order and once each, and nothing after the last one; no
    cycle raises [IndexError], and the replay index ends at [min(n, len)]. *)
Theorem packets_are_replayed_once_in_order :
  forall (loaded : list P.Packet) (n : nat),
    let r := P.run n {| P.self := P.Birth loaded; P.outputs := [] |} in
    fst r = Normal tt
    /\ P.outputs (snd r) = firstn n loaded
    /\ P.index (P.self (snd r)) = Z.of_nat (Nat.min n (List.length loaded)).
Proof.
  intros loaded n r. subst r. unfold P.Birth.
  change 0%Z with (Z.of_nat 0). change (@nil P.Packet) with (firstn 0 loaded).
  rewrite (replay_run loaded n 0 (Nat.le_0_l _)). repeat split.
Qed.

(** ** Segments of a line *)

Lemma segments_from_seq {Coord : Type} (line : list Coord) (n : nat) :
  forall k : nat,
    (k + n + 1 = List.length line)%nat ->
    MM.segments_from line (map Z.of_nat (seq k n))
    = Val (combine (skipn k line) (skipn (S k) line)).
Proof.
  induction n as [|n IH]; intros k Hk.
  - simpl MM.segments_from.
    rewrite (skipn_all2 (n := S k)) by lia.
    rewrite combine_nil. reflexivity.
  - cbn [seq map MM.segments_from].
    destruct (nth_error line k) as [a|] eqn:Ha;
      [| apply nth_error_None in Ha; lia].
    destruct (nth_error line (S k)) as [b|] eqn:Hb;
      [| apply nth_error_None in Hb; lia].
    rewrite (index_nat line k a Ha). cbn [ebind].
    replace (Z.of_nat k + 1)%Z with (Z.of_nat (S k)) by lia.
    rewrite (index_nat line (S k) b Hb). cbn [ebind].
    rewrite (IH (S k)) by lia. cbn [ebind].
    assert (Hs : forall j x, nth_error line j = Some x ->
                             skipn j line = x :: skipn (S j) line).
    { clear. intros j. revert line.
      induction j as [|j IHj]; intros [|y l] x H; simpl in *; try discriminate.
      - injection H as <-. reflexivity.
      - apply (IHj l x H). }
    rewrite (Hs k a Ha), (Hs (S k) b Hb). reflexivity.
Qed.

(** X25. [split_to_segments] never raises and returns the pairs of
    neighbouring points of the line, in order: [n] points give [n - 1]
    segments, each starting where the one before it ends; a line of fewer
    than two points gives none. *)
Theorem line_is_split_into_adjacent_pairs :
  forall (Coord : Type) (line : list Coord),
    MM.split_to_segments line = Val (combine line (tl line)).
Proof.
  intros Coord line. unfold MM.split_to_segments, MM.range.
  destruct line as [|a rest]; [reflexivity |].
  cbn [List.length tl].
  replace (Z.to_nat (Z.of_nat (S (List.length rest)) - 1)) with (List.length rest) by lia.
  rewrite (segments_from_seq (a :: rest) (List.length rest) 0) by (simpl; lia).
  reflexivity.
Qed.

(** ** The classifier on NumPy scalars *)










(** ** Arriving at the cruise speed *)

Section NearCruise.

Context {L : T.NumericLib}.

Lemma compute_near_cruise (label : string) (t_0 d v gec gs gen : num)
    (th : Thresholds) (t_arr v_h : num) (w : T.World) :
  T.rate_thresholds d v = Val th ->
  (label = "Scenario 2"
   /\ T.calculate_scen2_t_arr (t_e th) (t_cr th) (T.gamma_intervals t_0 gec gs gen)
      = Some t_arr)
  \/ (label = "Scenario 4"
      /\ T.calculate_scen4_t_arr (t_l th) (t_cr th) (T.gamma_intervals t_0 gec gs gen)
         = Some t_arr) ->
  div d t_arr = Val v_h ->
  gt (abs (sub v_h (v_c_ms th))) (py 1e-6) = false ->
  T.compute_velocity_profile t_0 d (Some v) gec gs gen label w = (Raised ValueError, w).
Proof.
  intros Hth Harr Hvh Hvd.
  unfold T.compute_velocity_profile, bind, lift, ret. simpl. rewrite Hth. simpl.
  destruct Harr as [[-> Harr] | [-> Harr]]; simpl; rewrite Harr; simpl;
    rewrite Hvh; simpl; rewrite (rate_n_no_candidates _ _ _ _ _ _ Hvd); reflexivity.
Qed.

End NearCruise.

(** X27. A Scenario 2 or Scenario 4 cycle with no cached profile whose
    arrival time gives a target average speed [d_0 / t_arr] within 1e-6 m/s
    of the current speed (a green window opening just before the cruise
    arrival) raises [ValueError] from [calculate_n_scen2and4]; nothing is
    written and the object is unchanged. *)
Theorem arrival_at_cruise_speed_raises_ValueError :
  forall (L : T.NumericLib) (s : T.Self) (label : string) (d v gec gs gen : num)
         (t0 : float) (th : Thresholds) (t_arr v_h : num),
    T.precomputed_velocity_profile s = None ->
    T.rate_thresholds d v = Val th ->
    (label = "Scenario 2"
     /\ T.calculate_scen2_t_arr (t_e th) (t_cr th) (T.gamma_intervals (py t0) gec gs gen)
        = Some t_arr)
    \/ (label = "Scenario 4"
        /\ T.calculate_scen4_t_arr (t_l th) (t_cr th) (T.gamma_intervals (py t0) gec gs gen)
           = Some t_arr) ->
    div d t_arr = Val v_h ->
    gt (abs (sub v_h (v_c_ms th))) (py 1e-6) = false ->
    T.cycle (plan_call label d v t0 gec gs gen) s
    = (Raised ValueError, {| T.self := s; T.outputs := []; T.files := [] |}).
Proof.
  intros L s label d v gec gs gen t0 th t_arr v_h Hs Hth Harr Hvh Hvd.
  planner_unfold. simpl. rewrite Hs.
  rewrite (compute_near_cruise label (py t0) d v gec gs gen th t_arr v_h _ Hth Harr Hvh Hvd).
  reflexivity.
Qed.

Lemma arrival_at_cruise_speed_raises_ValueError_witness :
  @T.cycle example_lib
     (plan_call "Scenario 2" (py 100) (py 30) 5 (py (-1)) (py 11.9999999) (py 1050))
     T.Birth
  = (Raised ValueError, {| T.self := T.Birth; T.outputs := []; T.files := [] |}).
Proof.
  assert (H : exists th,
             T.rate_thresholds (py 100) (py 30) = Val th
             /\ T.calculate_scen2_t_arr (t_e th) (t_cr th)
                  (T.gamma_intervals (py 5) (py (-1)) (py 11.9999999) (py 1050))
                = Some (py 11.9999999)
             /\ gt (abs (sub (py (100 / 11.9999999)) (v_c_ms th))) (py 1e-6) = false)
    by (eexists; repeat split; vm_compute; reflexivity).
  destruct H as (th & Hth & Harr & Hvd).
  apply (arrival_at_cruise_speed_raises_ValueError example_lib T.Birth "Scenario 2"
           (py 100) (py 30) (py (-1)) (py 11.9999999) (py 1050) 5 th
           (py 11.9999999) (py (100 / 11.9999999)) eq_refl Hth
           (or_introl (conj eq_refl Harr)) eq_refl Hvd).
Defined.
